(** * Configuration resolution and persistence of claude-code-webui

    A shallow embedding of [backend/utils/config-manager.ts] and
    [backend/handlers/config.ts], with the pieces of the JavaScript platform
    they rest on (strings, [JSON], [node:fs/promises], the logger), and the
    properties of the configuration subsystem proved over it. *)

From Stdlib Require Import ZArith NArith Ascii String List Lia.
From stdpp Require Import gmap strings list fin_maps.

Local Open Scope N_scope.
Local Set Warnings "-register-all".

(** ** JavaScript strings

    A JavaScript string is a sequence of UTF-16 code units; [length],
    [substring] and [trim] all count code units.  A code unit is a number
    (below 65536 in a real string; nothing here depends on the bound). *)

Module JS.

Abbreviation text := (list N).

(** The code units of an ASCII literal of the source. *)
Fixpoint lit (s : string) : text :=
  match s with
  | EmptyString => []
  | String a s' => N_of_ascii a :: lit s'
  end.

(** [s.length] *)
Definition String_length (s : text) : Z := Z.of_nat (length s).

(** An index argument of [substring], clamped into [0, s.length]. *)
Definition clamp (s : text) (i : Z) : nat := Z.to_nat (Z.max 0 (Z.min i (String_length s))).

(** [s.substring(start, end)]; [end_ = None] is the one-argument call. *)
Definition substring (s : text) (start : Z) (end_ : option Z) : text :=
  let a := clamp s start in
  let b := match end_ with Some e => clamp s e | None => length s end in
  take (Nat.max a b - Nat.min a b) (drop (Nat.min a b) s).

(** WhiteSpace and LineTerminator code units, the ones [trim] strips. *)
Definition is_white_space (c : N) : bool :=
  (c =? 0x09) || (c =? 0x0A) || (c =? 0x0B) || (c =? 0x0C) || (c =? 0x0D) ||
  (c =? 0x20) || (c =? 0xA0) || (c =? 0x1680) ||
  ((0x2000 <=? c) && (c <=? 0x200A)) ||
  (c =? 0x2028) || (c =? 0x2029) || (c =? 0x202F) || (c =? 0x205F) ||
  (c =? 0x3000) || (c =? 0xFEFF).

Fixpoint trimStart (s : text) : text :=
  match s with
  | c :: s' => if is_white_space c then trimStart s' else s
  | [] => []
  end.

Definition trimEnd (s : text) : text := rev (trimStart (rev s)).

(** [s.trim()] *)
Definition trim (s : text) : text := trimEnd (trimStart s).

(** ToBoolean of a value of type [string | undefined]: [undefined] and the
    empty string are falsy. *)
Definition truthy (s : option text) : bool :=
  match s with
  | Some (_ :: _) => true
  | _ => false
  end.

(** [a || b] where [a : string | undefined]. *)
Definition or_else (a : option text) (b : option text) : option text :=
  if truthy a then a else b.

(** [a || d] where [d] is a string: the result is a string. *)
Definition or_default (a : option text) (d : text) : text :=
  match a with
  | Some (c :: s) => c :: s
  | _ => d
  end.

End JS.

Import JS.

(** ** config-manager.ts: the data model *)

Record UserConfig := {
  uc_apiKey : option text;
  uc_baseUrl : option text;
  uc_model : option text;
  useSystemDefaults : bool;
}.

Record SystemConfig := {
  sc_apiKey : option text;
  sc_baseUrl : option text;
  sc_model : option text;
}.

Record EffectiveConfig := {
  apiKey : text;
  baseUrl : text;
  model : text;
}.

(** [DEFAULT_CONFIG.baseUrl!] and [DEFAULT_CONFIG.model!] *)
Definition DEFAULT_CONFIG_baseUrl : text := lit "https://api.anthropic.com".
Definition DEFAULT_CONFIG_model : text := lit "claude-sonnet-4-20250514".

(** The value [{}] of type [SystemConfig]. *)
Definition empty_SystemConfig : SystemConfig :=
  {| sc_apiKey := None; sc_baseUrl := None; sc_model := None |}.

(** ** ConfigManager.maskApiKey *)

Definition MASK_PLACEHOLDER : text := lit "***".
Definition MASK_ELLIPSIS : text := lit "...".

Definition maskApiKey (apiKey : option text) : option text :=
  if negb (truthy apiKey) then None
  else
    match apiKey with
    | None => None
    | Some s =>
        if (String_length s <=? 10)%Z then Some MASK_PLACEHOLDER
        else
          let start := substring s 0 (Some 7%Z) in
          let end_ := substring s (String_length s - 3) None in
          Some (start ++ MASK_ELLIPSIS ++ end_)
    end.

(** ** ConfigManager.testConfig *)

Definition testConfig (config : SystemConfig) : bool :=
  if negb (truthy (sc_apiKey config))
     || bool_decide (trim (default [] (sc_apiKey config)) = [])
  then false
  else true.

(** ** JSON

    The values [JSON.parse] produces, with [undefined] added for the result
    of reading a property that is not there.  A number is kept as the decimal
    numeral of the text, [m * 10^e]; all this program does with a number is
    test it for truthiness. *)

Module JSON.

Inductive value :=
| VUndefined
| VNull
| VBool (b : bool)
| VNum (m e : Z)
| VStr (s : text)
| VArr (items : list value)
| VObj (members : list (text * value)).

(** The numeral [m * 10^e] rounds to the double [0] (or [-0]) when its
    magnitude is at most [2^-1075], half the least subnormal. *)
Definition rounds_to_zero (m e : Z) : bool :=
  ((m =? 0) || ((e <? 0) && (Z.abs m * 2 ^ 1075 <=? 10 ^ (- e))))%Z.

(** ToBoolean *)
Definition truthy (v : value) : bool :=
  match v with
  | VUndefined | VNull => false
  | VBool b => b
  | VNum m e => negb (rounds_to_zero m e)
  | VStr s => negb (bool_decide (s = []))
  | VArr _ | VObj _ => true
  end.

(** [a || b] *)
Definition or_else (a b : value) : value := if truthy a then a else b.

Fixpoint lookup_member (k : text) (ms : list (text * value)) : option value :=
  match ms with
  | [] => None
  | (k', v) :: ms' => if bool_decide (k' = k) then Some v else lookup_member k ms'
  end.

(** [v.k] for a key [k] that names no built-in property ([length], an index,
    a method of a prototype): the own property of an object, [undefined] on
    any other value, and a TypeError ([None]) on [null] and [undefined]. *)
Definition get (v : value) (k : text) : option value :=
  match v with
  | VUndefined | VNull => None
  | VObj ms => Some (default VUndefined (lookup_member k ms))
  | _ => Some VUndefined
  end.

(** Defining property [k] of an object under construction: a repeated key
    keeps its place and takes the later value. *)
Fixpoint set_member (k : text) (v : value) (ms : list (text * value))
  : list (text * value) :=
  match ms with
  | [] => [(k, v)]
  | (k', v') :: ms' =>
      if bool_decide (k' = k) then (k', v) :: ms' else (k', v') :: set_member k v ms'
  end.

(** *** JSON.parse *)

Inductive parsed (A : Type) :=
| Parsed (a : A) (rest : text)
| Malformed
| OutOfFuel.
Arguments Parsed {A} a rest.
Arguments Malformed {A}.
Arguments OutOfFuel {A}.

Definition is_json_space (c : N) : bool :=
  (c =? 0x20) || (c =? 0x09) || (c =? 0x0A) || (c =? 0x0D).

Fixpoint skip_ws (s : text) : text :=
  match s with
  | c :: s' => if is_json_space c then skip_ws s' else s
  | [] => []
  end.

Definition is_digit (c : N) : bool := (0x30 <=? c) && (c <=? 0x39).

Definition hex_digit (c : N) : option N :=
  if (0x30 <=? c) && (c <=? 0x39) then Some (c - 0x30)
  else if (0x41 <=? c) && (c <=? 0x46) then Some (c - 0x41 + 10)
  else if (0x61 <=? c) && (c <=? 0x66) then Some (c - 0x61 + 10)
  else None.

Definition hex4 (a b c d : N) : option N :=
  match hex_digit a, hex_digit b, hex_digit c, hex_digit d with
  | Some x, Some y, Some z, Some w => Some (((x * 16 + y) * 16 + z) * 16 + w)
  | _, _, _, _ => None
  end.

(** The code unit a two-character escape stands for. *)
Definition simple_escape (c : N) : option N :=
  if c =? 0x22 then Some 0x22          (* quote *)
  else if c =? 0x5C then Some 0x5C     (* backslash *)
  else if c =? 0x2F then Some 0x2F     (* solidus *)
  else if c =? 0x62 then Some 0x08     (* backspace *)
  else if c =? 0x66 then Some 0x0C     (* form feed *)
  else if c =? 0x6E then Some 0x0A     (* line feed *)
  else if c =? 0x72 then Some 0x0D     (* carriage return *)
  else if c =? 0x74 then Some 0x09     (* tab *)
  else None.

Definition cons_char (c : N) (r : option (text * text)) : option (text * text) :=
  match r with
  | Some (str, rest) => Some (c :: str, rest)
  | None => None
  end.

(** The characters of a string literal after its opening quote, up to and
    including the closing quote. *)
Fixpoint parse_chars (s : text) : option (text * text) :=
  match s with
  | [] => None
  | c :: s' =>
      if c =? 0x22 then Some ([], s')
      else if c =? 0x5C then
        match s' with
        | [] => None
        | e :: s'' =>
            if e =? 0x75 then
              match s'' with
              | h1 :: h2 :: h3 :: h4 :: r =>
                  match hex4 h1 h2 h3 h4 with
                  | Some u => cons_char u (parse_chars r)
                  | None => None
                  end
              | _ => None
              end
            else
              match simple_escape e with
              | Some u => cons_char u (parse_chars s'')
              | None => None
              end
        end
      else if c <? 0x20 then None
      else cons_char c (parse_chars s')
  end.

(** A maximal run of decimal digits, most significant first. *)
Fixpoint digits (s : text) : list N * text :=
  match s with
  | c :: s' =>
      if is_digit c then let '(ds, r) := digits s' in (c :: ds, r) else ([], s)
  | [] => ([], [])
  end.

Definition digits_value (ds : list N) : Z :=
  fold_left (fun acc c => (acc * 10 + Z.of_N (c - 0x30))%Z) ds 0%Z.

(** [-? int frac? exp?] with [int = 0 | [1-9][0-9]*]. *)
Definition parse_number (s : text) : option (Z * Z * text) :=
  let '(neg, s1) :=
    match s with
    | c :: r => if c =? 0x2D then (true, r) else (false, s)
    | [] => (false, s)
    end in
  let int_part :=
    match s1 with
    | c :: r =>
        if c =? 0x30 then Some ([c], r)
        else if is_digit c then Some (digits s1)
        else None
    | [] => None
    end in
  match int_part with
  | None => None
  | Some (ipart, s2) =>
      let frac_part :=
        match s2 with
        | c :: r =>
            if c =? 0x2E then
              match digits r with
              | ([], _) => None
              | (fs, r') => Some (fs, r')
              end
            else Some ([], s2)
        | [] => Some ([], s2)
        end in
      match frac_part with
      | None => None
      | Some (fpart, s3) =>
          let exp_part :=
            match s3 with
            | c :: r =>
                if (c =? 0x65) || (c =? 0x45) then
                  let '(eneg, r1) :=
                    match r with
                    | d :: r' =>
                        if d =? 0x2D then (true, r')
                        else if d =? 0x2B then (false, r')
                        else (false, r)
                    | [] => (false, r)
                    end in
                  match digits r1 with
                  | ([], _) => None
                  | (es, r2) =>
                      Some ((if eneg then - digits_value es else digits_value es)%Z, r2)
                  end
                else Some (0%Z, s3)
            | [] => Some (0%Z, s3)
            end in
          match exp_part with
          | None => None
          | Some (ex, s4) =>
              let mant := digits_value (ipart ++ fpart) in
              Some ((if neg then - mant else mant)%Z,
                    (ex - Z.of_nat (length fpart))%Z, s4)
          end
      end
  end.

(** [s] starts with the keyword [kw]. *)
Fixpoint expect (kw : text) (s : text) : option text :=
  match kw with
  | [] => Some s
  | k :: kw' =>
      match s with
      | c :: s' => if c =? k then expect kw' s' else None
      | [] => None
      end
  end.

Definition keyword (kw : text) (v : value) (s : text) : parsed value :=
  match expect kw s with
  | Some r => Parsed v r
  | None => Malformed
  end.

Fixpoint parse_value (fuel : nat) (s : text) : parsed value :=
  match fuel with
  | O => OutOfFuel
  | S fuel =>
      match skip_ws s with
      | [] => Malformed
      | c :: s' =>
          if c =? 0x7B then                         (* { *)
            match skip_ws s' with
            | c' :: r => if c' =? 0x7D then Parsed (VObj []) r
                         else parse_members fuel [] s'
            | [] => Malformed
            end
          else if c =? 0x5B then                    (* [ *)
            match skip_ws s' with
            | c' :: r => if c' =? 0x5D then Parsed (VArr []) r
                         else parse_elements fuel [] s'
            | [] => Malformed
            end
          else if c =? 0x22 then                    (* string *)
            match parse_chars s' with
            | Some (str, r) => Parsed (VStr str) r
            | None => Malformed
            end
          else if c =? 0x74 then keyword (lit "rue") (VBool true) s'
          else if c =? 0x66 then keyword (lit "alse") (VBool false) s'
          else if c =? 0x6E then keyword (lit "ull") VNull s'
          else
            match parse_number (c :: s') with
            | Some (m, e, r) => Parsed (VNum m e) r
            | None => Malformed
            end
      end
  end

with parse_elements (fuel : nat) (acc : list value) (s : text) : parsed value :=
  match fuel with
  | O => OutOfFuel
  | S fuel =>
      match parse_value fuel s with
      | Parsed v r =>
          match skip_ws r with
          | c :: r' =>
              if c =? 0x2C then parse_elements fuel (acc ++ [v]) r'
              else if c =? 0x5D then Parsed (VArr (acc ++ [v])) r'
              else Malformed
          | [] => Malformed
          end
      | Malformed => Malformed
      | OutOfFuel => OutOfFuel
      end
  end

with parse_members (fuel : nat) (acc : list (text * value)) (s : text) : parsed value :=
  match fuel with
  | O => OutOfFuel
  | S fuel =>
      match skip_ws s with
      | q :: s1 =>
          if q =? 0x22 then
            match parse_chars s1 with
            | Some (key, s2) =>
                match skip_ws s2 with
                | colon :: s3 =>
                    if colon =? 0x3A then
                      match parse_value fuel s3 with
                      | Parsed v r =>
                          match skip_ws r with
                          | c :: r' =>
                              if c =? 0x2C then parse_members fuel (set_member key v acc) r'
                              else if c =? 0x7D then Parsed (VObj (set_member key v acc)) r'
                              else Malformed
                          | [] => Malformed
                          end
                      | Malformed => Malformed
                      | OutOfFuel => OutOfFuel
                      end
                    else Malformed
                | [] => Malformed
                end
            | None => Malformed
            end
          else Malformed
      | [] => Malformed
      end
  end.

(** [JSON.parse(s)]: [None] is the SyntaxError it throws.  Every recursive
    call consumes a character or alternates once between a value and the
    list it opens, so [2 * length s + 1] steps are enough
    ([FuelFacts.parse_value_fuel]). *)
Definition parse (s : text) : option value :=
  match parse_value (S (2 * length s)) s with
  | Parsed v r => match skip_ws r with [] => Some v | _ => None end
  | _ => None
  end.

(** *** JSON.stringify

    QuoteJSONString: the two-character escapes, [\uXXXX] (lower-case hex) for
    the other control characters and for a surrogate that is not half of a
    pair, every other code unit as it is. *)

Definition hex_char (d : N) : N := if d <? 10 then 0x30 + d else 0x61 + (d - 10).

Definition unicode_escape (c : N) : text :=
  [0x5C; 0x75; hex_char (c / 4096 mod 16); hex_char (c / 256 mod 16);
   hex_char (c / 16 mod 16); hex_char (c mod 16)].

Definition is_high_surrogate (c : N) : bool := (0xD800 <=? c) && (c <=? 0xDBFF).
Definition is_low_surrogate (c : N) : bool := (0xDC00 <=? c) && (c <=? 0xDFFF).

Definition quote_code_unit (c : N) : text :=
  if c =? 0x08 then [0x5C; 0x62]
  else if c =? 0x09 then [0x5C; 0x74]
  else if c =? 0x0A then [0x5C; 0x6E]
  else if c =? 0x0C then [0x5C; 0x66]
  else if c =? 0x0D then [0x5C; 0x72]
  else if c =? 0x22 then [0x5C; 0x22]
  else if c =? 0x5C then [0x5C; 0x5C]
  else if c <? 0x20 then unicode_escape c
  else [c].

Fixpoint quote_chars (s : text) : text :=
  match s with
  | [] => []
  | c :: s' =>
      if is_high_surrogate c then
        match s' with
        | d :: s'' =>
            if is_low_surrogate d then c :: d :: quote_chars s''
            else unicode_escape c ++ quote_chars s'
        | [] => unicode_escape c
        end
      else if is_low_surrogate c then unicode_escape c ++ quote_chars s'
      else quote_code_unit c ++ quote_chars s'
  end.

Definition quote (s : text) : text := [0x22] ++ quote_chars s ++ [0x22].

Definition LF : text := [0x0A].

Fixpoint join (sep : text) (parts : list text) : text :=
  match parts with
  | [] => []
  | [p] => p
  | p :: ps => p ++ sep ++ join sep ps
  end.

(** One line [  "key": value] of an object printed with gap [2]. *)
Definition property (key : string) (v : text) : text :=
  lit "  " ++ quote (lit key) ++ lit ": " ++ v.

(** SerializeJSONObject at depth 0 with gap [2], from the printed
    properties. *)
Definition object (props : list text) : text :=
  match props with
  | [] => lit "{}"
  | _ => lit "{" ++ LF ++ join (lit "," ++ LF) props ++ LF ++ lit "}"
  end.

Definition boolean (b : bool) : text := if b then lit "true" else lit "false".

End JSON.

(** ** The process: file system, log, exceptions

    The file system is a tree of directories and regular files indexed by
    path (the list of path components below the root).  Only its shape and
    the contents of files are represented: an operation fails when the tree
    makes it fail.  Permission bits (the modes [0o700] and [0o600] of the
    source) and ownership are not represented. *)

Module Sys.

Abbreviation path := (list string).

Inductive node :=
| Dir
| File (data : text).

Inductive error :=
| SystemError (code : string)
| SyntaxError
| TypeError.

(** [error.code] *)
Definition code (e : error) : option string :=
  match e with
  | SystemError c => Some c
  | _ => None
  end.

Inductive level := Info | Warn | Error.

Record world := {
  homedir : path;
  files : gmap path node;
  log : list (level * string);
}.

(** How a call ends: it returns, it throws, or it leaves what is modelled (a
    value that does not have the TypeScript type the source gives it, a
    directory handed to [rename]). *)
Inductive outcome (A : Type) :=
| Return (a : A)
| Throw (e : error)
| Unmodelled.
Arguments Return {A} a.
Arguments Throw {A} e.
Arguments Unmodelled {A}.

Definition M (A : Type) : Type := world -> outcome A * world.

#[export] Instance M_ret : MRet M := fun A a w => (Return a, w).

#[export] Instance M_bind : MBind M := fun A B f m w =>
  match m w with
  | (Return a, w') => f a w'
  | (Throw e, w') => (Throw e, w')
  | (Unmodelled, w') => (Unmodelled, w')
  end.

Definition throw {A} (e : error) : M A := fun w => (Throw e, w).
Definition unmodelled {A} : M A := fun w => (Unmodelled, w).

(** [try { body } catch (error) { handler }] *)
Definition try_catch {A} (body : M A) (handler : error -> M A) : M A := fun w =>
  match body w with
  | (Throw e, w') => handler e w'
  | r => r
  end.

(** A value of type [any] used at a TypeScript type. *)
Definition cast {A} (o : option A) : M A :=
  match o with
  | Some a => mret a
  | None => unmodelled
  end.

Definition with_files (w : world) (fs : gmap path node) : world :=
  {| homedir := homedir w; files := fs; log := log w |}.

(** [logger.api.info], [.warn], [.error]: the level and the message
    template. *)
Definition logger (l : level) (message : string) : M unit := fun w =>
  (Return tt, {| homedir := homedir w; files := files w; log := log w ++ [(l, message)] |}).

(** *** node:fs/promises *)

(** The prefixes of [p] with 1 to [n] components. *)
Definition prefixes (p : path) (n : nat) : list path := (fun k => take k p) <$> seq 1 n.

Definition parent (p : path) : path := take (length p - 1) p.

Definition is_file (o : option node) : bool :=
  match o with
  | Some (File _) => true
  | _ => false
  end.

(** The node at [p]; the root is a directory. *)
Definition node_at (fs : gmap path node) (p : path) : option node :=
  match p with
  | [] => Some Dir
  | _ => fs !! p
  end.

(** A proper prefix of [p] is a regular file. *)
Definition under_file (fs : gmap path node) (p : path) : bool :=
  existsb (fun q => is_file (fs !! q)) (prefixes p (length p - 1)).

Definition readFile (p : path) : M text := fun w =>
  if under_file (files w) p then (Throw (SystemError "ENOTDIR"), w)
  else
    match node_at (files w) p with
    | None => (Throw (SystemError "ENOENT"), w)
    | Some Dir => (Throw (SystemError "EISDIR"), w)
    | Some (File data) => (Return data, w)
    end.

(** What an operation that changes the tree does to it: the new tree, the
    [code] of the error it fails with, or nothing modelled. *)
Inductive change :=
| Done (fs : gmap path node)
| Fail (code : string)
| Unsupported.

Definition apply_change (f : gmap path node -> change) : M unit := fun w =>
  match f (files w) with
  | Done fs => (Return tt, with_files w fs)
  | Fail c => (Throw (SystemError c), w)
  | Unsupported => (Unmodelled, w)
  end.

(** The tree with a directory at every prefix of [p]. *)
Definition make_dirs (fs : gmap path node) (p : path) : gmap path node :=
  foldr (fun q fs => <[q := Dir]> fs) fs (prefixes p (length p)).

Definition mkdir_tree (p : path) (fs : gmap path node) : change :=
  if under_file fs p then Fail "ENOTDIR"
  else if is_file (node_at fs p) then Fail "EEXIST"
  else Done (make_dirs fs p).

Definition writeFile_tree (p : path) (data : text) (fs : gmap path node) : change :=
  if under_file fs p then Fail "ENOTDIR"
  else
    match node_at fs (parent p) with
    | Some Dir =>
        match node_at fs p with
        | Some Dir => Fail "EISDIR"
        | _ => Done (<[p := File data]> fs)
        end
    | _ => Fail "ENOENT"
    end.

(** Renaming a regular file; a regular file at [dst] is replaced.  Moving a
    directory is not modelled. *)
Definition rename_tree (src dst : path) (fs : gmap path node) : change :=
  if under_file fs src || under_file fs dst then Fail "ENOTDIR"
  else
    match node_at fs src with
    | None => Fail "ENOENT"
    | Some Dir => Unsupported
    | Some (File data) =>
        match node_at fs (parent dst) with
        | Some Dir =>
            match node_at fs dst with
            | Some Dir => Fail "EISDIR"
            | _ => Done (<[dst := File data]> (delete src fs))
            end
        | _ => Fail "ENOENT"
        end
    end.

(** [fs.mkdir(p, { recursive: true })] *)
Definition mkdir (p : path) : M unit := apply_change (mkdir_tree p).

(** [fs.writeFile(p, data)] *)
Definition writeFile (p : path) (data : text) : M unit := apply_change (writeFile_tree p data).

(** [fs.rename(src, dst)] *)
Definition rename (src dst : path) : M unit := apply_change (rename_tree src dst).

(** [path.join(p, ...segments)] *)
Definition path_join (p : path) (segments : list string) : path := p ++ segments.

(** The template [`${p}${suffix}`]: the suffix goes on the last component. *)
Definition path_suffix (p : path) (suffix : string) : path :=
  match last p with
  | Some name => parent p ++ [name +:+ suffix]
  | None => [suffix]
  end.

(** [JSON.parse(data)], which throws a SyntaxError. *)
Definition JSON_parse (data : text) : M JSON.value :=
  match JSON.parse data with
  | Some v => mret v
  | None => throw SyntaxError
  end.

(** [v.k], which throws a TypeError on [null] and [undefined]. *)
Definition get (v : JSON.value) (k : string) : M JSON.value :=
  match JSON.get v (lit k) with
  | Some x => mret x
  | None => throw TypeError
  end.

End Sys.

Import Sys.

(** ** Values of type [any] at the types of the data model *)

(** [string | undefined] *)
Definition as_optional_string (v : JSON.value) : option (option text) :=
  match v with
  | JSON.VUndefined => Some None
  | JSON.VStr s => Some (Some s)
  | _ => None
  end.

(** [boolean] *)
Definition as_boolean (v : JSON.value) : option bool :=
  match v with
  | JSON.VBool b => Some b
  | _ => None
  end.

Definition member (ms : list (text * JSON.value)) (k : string) : JSON.value :=
  default JSON.VUndefined (JSON.lookup_member (lit k) ms).

(** [UserConfig]: an object with a boolean [useSystemDefaults] whose
    [apiKey], [baseUrl] and [model], when there, are strings. *)
Definition as_UserConfig (v : JSON.value) : option UserConfig :=
  match v with
  | JSON.VObj ms =>
      match as_boolean (member ms "useSystemDefaults"),
            as_optional_string (member ms "apiKey"),
            as_optional_string (member ms "baseUrl"),
            as_optional_string (member ms "model") with
      | Some b, Some k, Some u, Some m =>
          Some {| uc_apiKey := k; uc_baseUrl := u; uc_model := m; useSystemDefaults := b |}
      | _, _, _, _ => None
      end
  | _ => None
  end.

(** [UserConfig | null], the type [getUserConfig] returns. *)
Definition as_UserConfig_or_null (v : JSON.value) : option (option UserConfig) :=
  match v with
  | JSON.VNull => Some None
  | _ => Some <$> as_UserConfig v
  end.

(** A value of type [string | undefined] as a property value. *)
Definition of_optional_string (s : option text) : JSON.value :=
  match s with
  | Some s => JSON.VStr s
  | None => JSON.VUndefined
  end.

(** [JSON.stringify(config, null, 2)] for [config : UserConfig], an object
    whose properties were created in the order [useSystemDefaults],
    [apiKey], [baseUrl], [model] (the object literal of [handleSaveConfig],
    the one place a [UserConfig] is built); an [undefined] property is left
    out. *)
Definition JSON_stringify_UserConfig (config : UserConfig) : text :=
  JSON.object
    ([JSON.property "useSystemDefaults" (JSON.boolean (useSystemDefaults config))]
     ++ from_option (fun s => [JSON.property "apiKey" (JSON.quote s)]) [] (uc_apiKey config)
     ++ from_option (fun s => [JSON.property "baseUrl" (JSON.quote s)]) [] (uc_baseUrl config)
     ++ from_option (fun s => [JSON.property "model" (JSON.quote s)]) [] (uc_model config)).

(** ** class ConfigManager *)

Record ConfigManager := {
  userConfigPath : path;
  systemConfigPath : path;
  configDir : path;
}.

(** The constructor, given [os.homedir()]. *)
Definition ConfigManager_new (home : path) : ConfigManager :=
  let dir := path_join home [".claude-webui"%string] in
  {| configDir := dir;
     userConfigPath := path_join dir ["config.json"%string];
     systemConfigPath := path_join home [".claude"%string; "settings.json"%string] |}.

Definition ensureConfigDir (this : ConfigManager) : M unit :=
  try_catch
    (mkdir (configDir this))
    (fun error =>
       logger Error "Failed to create config directory: {error}";;
       throw error).

Definition getUserConfig (this : ConfigManager) : M (option UserConfig) :=
  try_catch
    (data ← readFile (userConfigPath this);
     parsed ← JSON_parse data;
     config ← cast (as_UserConfig_or_null parsed);
     logger Info "Loaded user config from {path}";;
     mret config)
    (fun error =>
       if bool_decide (code error = Some "ENOENT"%string) then
         logger Info "No user config found";;
         mret None
       else
         logger Warn "Failed to read user config: {error}";;
         mret None).

Definition saveUserConfig (this : ConfigManager) (config : UserConfig) : M unit :=
  try_catch
    (ensureConfigDir this;;
     let tempPath := path_suffix (userConfigPath this) ".tmp" in
     writeFile tempPath (JSON_stringify_UserConfig config);;
     rename tempPath (userConfigPath this);;
     logger Info "Saved user config to {path}")
    (fun error =>
       logger Error "Failed to save user config: {error}";;
       throw error).

Definition getSystemConfig (this : ConfigManager) : M SystemConfig :=
  try_catch
    (data ← readFile (systemConfigPath this);
     settings ← JSON_parse data;
     settings_env ← get settings "env";
     let env := JSON.or_else settings_env (JSON.VObj []) in
     auth_token ← get env "ANTHROPIC_AUTH_TOKEN";
     api_key ← get env "ANTHROPIC_API_KEY";
     base_url ← get env "ANTHROPIC_BASE_URL";
     anthropic_model ← get env "ANTHROPIC_MODEL";
     sonnet_model ← get env "ANTHROPIC_DEFAULT_SONNET_MODEL";
     apiKey ← cast (as_optional_string (JSON.or_else auth_token api_key));
     baseUrl ← cast (as_optional_string base_url);
     model ← cast (as_optional_string (JSON.or_else anthropic_model sonnet_model));
     let config := {| sc_apiKey := apiKey; sc_baseUrl := baseUrl; sc_model := model |} in
     logger Info "Loaded system config from {path}";;
     mret config)
    (fun error =>
       if bool_decide (code error = Some "ENOENT"%string) then
         logger Warn "No system config found at {path}";;
         mret empty_SystemConfig
       else
         logger Warn "Failed to read system config: {error}";;
         mret empty_SystemConfig).

(** [userConfig?.useSystemDefaults] as a condition. *)
Definition wants_system_defaults (userConfig : option UserConfig) : bool :=
  match userConfig with
  | Some c => useSystemDefaults c
  | None => false
  end.

Definition getEffectiveConfig (this : ConfigManager) : M EffectiveConfig :=
  userConfig ← getUserConfig this;
  systemConfig ← getSystemConfig this;
  if wants_system_defaults userConfig then
    mret {| apiKey := or_default (sc_apiKey systemConfig) (lit "");
            baseUrl := or_default (sc_baseUrl systemConfig) DEFAULT_CONFIG_baseUrl;
            model := or_default (sc_model systemConfig) DEFAULT_CONFIG_model |}
  else
    match userConfig with
    | Some c =>
        if negb (useSystemDefaults c) then
          mret {| apiKey := or_default (or_else (uc_apiKey c) (sc_apiKey systemConfig)) (lit "");
                  baseUrl := or_default (uc_baseUrl c) DEFAULT_CONFIG_baseUrl;
                  model := or_default (uc_model c) DEFAULT_CONFIG_model |}
        else
          mret {| apiKey := or_default (sc_apiKey systemConfig) (lit "");
                  baseUrl := or_default (sc_baseUrl systemConfig) DEFAULT_CONFIG_baseUrl;
                  model := or_default (sc_model systemConfig) DEFAULT_CONFIG_model |}
    | None =>
        mret {| apiKey := or_default (sc_apiKey systemConfig) (lit "");
                baseUrl := or_default (sc_baseUrl systemConfig) DEFAULT_CONFIG_baseUrl;
                model := or_default (sc_model systemConfig) DEFAULT_CONFIG_model |}
    end.

(** [getConfigManager()]: the manager is built once, from a home directory
    that does not change while the process runs, and has no state but its
    three paths. *)
Definition getConfigManager : M ConfigManager := fun w =>
  (Return (ConfigManager_new (homedir w)), w).

(** ** handlers/config.ts *)

(** The part of Hono's [Context] the handlers use: the body of the request,
    read by [c.req.json()]. *)
Record Context := {
  req_body : text;
}.

Record Response := {
  status : N;
  body : JSON.value;
}.

(** [c.json(object)] and [c.json(object, status)] *)
Definition c_json (object : JSON.value) (status : N) : Response :=
  {| status := status; body := object |}.

(** Modelled from the spec: [SaveConfigRequest] is declared in
    [shared/types.ts], which is not among the sources.  The save request
    carries a [UserConfig] (section 6 of the specification): a boolean
    [useSystemDefaults] and optional strings [apiKey], [baseUrl], [model]. *)
Record SaveConfigRequest := {
  req_useSystemDefaults : bool;
  req_apiKey : option text;
  req_baseUrl : option text;
  req_model : option text;
}.

Definition as_SaveConfigRequest (v : JSON.value) : option SaveConfigRequest :=
  match v with
  | JSON.VObj ms =>
      match as_boolean (member ms "useSystemDefaults"),
            as_optional_string (member ms "apiKey"),
            as_optional_string (member ms "baseUrl"),
            as_optional_string (member ms "model") with
      | Some b, Some k, Some u, Some m =>
          Some {| req_useSystemDefaults := b; req_apiKey := k; req_baseUrl := u; req_model := m |}
      | _, _, _, _ => None
      end
  | _ => None
  end.

(** Modelled from the spec: [ConfigTestRequest], also of [shared/types.ts]:
    a candidate [{ apiKey, baseUrl?, model? }]. *)
Definition as_ConfigTestRequest (v : JSON.value) : option SystemConfig :=
  match v with
  | JSON.VObj ms =>
      match as_optional_string (member ms "apiKey"),
            as_optional_string (member ms "baseUrl"),
            as_optional_string (member ms "model") with
      | Some k, Some u, Some m => Some {| sc_apiKey := k; sc_baseUrl := u; sc_model := m |}
      | _, _, _ => None
      end
  | _ => None
  end.

(** The object literal of a [UserConfigResponse]. *)
Definition UserConfigResponse (useSystemDefaults : bool) (apiKey baseUrl model : option text)
  : JSON.value :=
  JSON.VObj [(lit "useSystemDefaults", JSON.VBool useSystemDefaults);
             (lit "apiKey", of_optional_string apiKey);
             (lit "baseUrl", of_optional_string baseUrl);
             (lit "model", of_optional_string model)].

Definition error_body (message : string) : JSON.value :=
  JSON.VObj [(lit "error", JSON.VStr (lit message))].

Definition handleGetConfig (c : Context) : M Response :=
  try_catch
    (configManager ← getConfigManager;
     userConfig ← getUserConfig configManager;
     systemConfig ← getSystemConfig configManager;
     match userConfig with
     | None =>
         mret (c_json (UserConfigResponse true
                         (maskApiKey (sc_apiKey systemConfig))
                         (sc_baseUrl systemConfig)
                         (sc_model systemConfig)) 200)
     | Some userConfig =>
         mret (c_json (UserConfigResponse (useSystemDefaults userConfig)
                         (maskApiKey (uc_apiKey userConfig))
                         (uc_baseUrl userConfig)
                         (uc_model userConfig)) 200)
     end)
    (fun error =>
       logger Error "Failed to get config: {error}";;
       mret (c_json (error_body "Failed to get configuration") 500)).

Definition handleSaveConfig (c : Context) : M Response :=
  try_catch
    (json ← JSON_parse (req_body c);
     body ← cast (as_SaveConfigRequest json);
     configManager ← getConfigManager;
     let save : M Response :=
       let userConfig :=
         {| useSystemDefaults := req_useSystemDefaults body;
            uc_apiKey := req_apiKey body;
            uc_baseUrl := req_baseUrl body;
            uc_model := req_model body |} in
       saveUserConfig configManager userConfig;;
       mret (c_json (UserConfigResponse (useSystemDefaults userConfig)
                       (maskApiKey (uc_apiKey userConfig))
                       (uc_baseUrl userConfig)
                       (uc_model userConfig)) 200) in
     if negb (req_useSystemDefaults body) then
       if negb (truthy (req_apiKey body))
          || bool_decide (trim (default [] (req_apiKey body)) = [])
       then mret (c_json (error_body "API key is required") 400)
       else save
     else save)
    (fun error =>
       logger Error "Failed to save config: {error}";;
       mret (c_json (error_body "Failed to save configuration") 500)).

Definition handleGetSystemConfig (c : Context) : M Response :=
  try_catch
    (configManager ← getConfigManager;
     systemConfig ← getSystemConfig configManager;
     mret (c_json (JSON.VObj [(lit "hasSystemConfig", JSON.VBool (truthy (sc_apiKey systemConfig)));
                              (lit "baseUrl", of_optional_string (sc_baseUrl systemConfig));
                              (lit "model", of_optional_string (sc_model systemConfig))]) 200))
    (fun error =>
       logger Error "Failed to get system config: {error}";;
       mret (c_json (error_body "Failed to get system configuration") 500)).

Definition handleTestConfig (c : Context) : M Response :=
  try_catch
    (json ← JSON_parse (req_body c);
     body ← cast (as_ConfigTestRequest json);
     configManager ← getConfigManager;
     let isValid := testConfig body in
     mret (c_json (JSON.VObj [(lit "success", JSON.VBool isValid);
                              (lit "error", if isValid then JSON.VUndefined
                                            else JSON.VStr (lit "Invalid API configuration"))]) 200))
    (fun error =>
       logger Error "Failed to test config: {error}";;
       mret (c_json (JSON.VObj [(lit "success", JSON.VBool false);
                                (lit "error", JSON.VStr (lit "Failed to test configuration"))]) 500)).

(** ** Vocabulary of the statements *)

(** A call that does not throw. *)
Definition no_throw {A} (r : outcome A * world) : Prop :=
  match r.1 with
  | Throw _ => False
  | _ => True
  end.

(** The first candidate that is present and not the empty string, else the
    fallback [d]. *)
Fixpoint first_nonempty (candidates : list (option text)) (d : text) : text :=
  match candidates with
  | [] => d
  | Some (c :: s) :: _ => c :: s
  | _ :: rest => first_nonempty rest d
  end.

(** A string that is empty after trimming. *)
Definition blank (s : text) : Prop := trim s = [].

(** The first candidate that is present and not blank, else the fallback
    [d]: the reading of C1 with blank as in C5. *)
Fixpoint first_nonblank (candidates : list (option text)) (d : text) : text :=
  match candidates with
  | [] => d
  | Some s :: rest => if bool_decide (blank s) then first_nonblank rest d else s
  | None :: rest => first_nonblank rest d
  end.

(** The keys [getSystemConfig] reads in the [env] object of the settings. *)
Definition recognized_keys : list string :=
  ["ANTHROPIC_AUTH_TOKEN"; "ANTHROPIC_API_KEY"; "ANTHROPIC_BASE_URL";
   "ANTHROPIC_MODEL"; "ANTHROPIC_DEFAULT_SONNET_MODEL"]%string.

(** The settings have no [env] object, or one with none of the recognized
    keys. *)
Definition no_recognized_key (settings : JSON.value) : Prop :=
  forall env, JSON.get settings (lit "env") = Some env ->
    Forall (fun k => JSON.get (JSON.or_else env (JSON.VObj [])) (lit k) = Some JSON.VUndefined)
           recognized_keys.

(** Every prefix of [dir] is a directory of the tree. *)
Definition dirs_ready (fs : gmap path node) (dir : path) : Prop :=
  forall q, q ∈ prefixes dir (length dir) -> fs !! q = Some Dir.

(** The tree [saveUserConfig] leaves: the three steps, each on the tree the
    one before left, up to the first that fails. *)
Definition save_tree (this : ConfigManager) (data : text) (fs : gmap path node)
  : gmap path node :=
  let tempPath := path_suffix (userConfigPath this) ".tmp" in
  match mkdir_tree (configDir this) fs with
  | Done fs1 =>
      match writeFile_tree tempPath data fs1 with
      | Done fs2 =>
          match rename_tree tempPath (userConfigPath this) fs2 with
          | Done fs3 => fs3
          | _ => fs2
          end
      | _ => fs1
      end
  | _ => fs
  end.

(** A code unit that is not a surrogate. *)
Definition plain (c : N) : bool :=
  negb (JSON.is_high_surrogate c) && negb (JSON.is_low_surrogate c).

(** Well-formed UTF-16: every surrogate is half of a pair.  Such a text is
    unchanged by encoding it to UTF-8 and decoding it back, which is what
    writing a file and reading it with encoding [utf-8] do. *)
Fixpoint well_formed (s : text) : bool :=
  match s with
  | [] => true
  | c :: s' =>
      if JSON.is_high_surrogate c then
        match s' with
        | d :: s'' => JSON.is_low_surrogate d && well_formed s''
        | [] => false
        end
      else negb (JSON.is_low_surrogate c) && well_formed s'
  end.

(** The world [w] with more entries in its log. *)
Definition append_log (w : world) (entries : list (level * string)) : world :=
  {| homedir := homedir w; files := files w; log := log w ++ entries |}.

(** ** Example worlds *)

Module Example.

Definition home : path := ["home"; "dev"]%string.

Definition manager : ConfigManager := ConfigManager_new home.

(** The text of a settings file whose [env] object has the given string
    variables. *)
Definition settings (vars : list (string * string)) : text :=
  lit "{" ++ JSON.quote (lit "env") ++ lit ": {"
  ++ JSON.join (lit ", ")
       ((fun kv => JSON.quote (lit kv.1) ++ lit ": " ++ JSON.quote (lit kv.2)) <$> vars)
  ++ lit "}}".

Definition world_of (fs : gmap path node) : world :=
  {| homedir := home; files := fs; log := [] |}.

(** A fresh machine: neither file exists. *)
Definition fresh : world := world_of ∅.

(** Only the system settings exist, with a credential. *)
Definition system_only : world :=
  world_of (<[systemConfigPath manager :=
               File (settings [("ANTHROPIC_API_KEY", "sys-key")]%string)]> ∅).

(** A custom user configuration with a whitespace-only credential and its
    own endpoint, next to system settings with a credential, an endpoint and
    a model. *)
Definition custom_config : UserConfig :=
  {| useSystemDefaults := false; uc_apiKey := Some (lit " ");
     uc_baseUrl := Some (lit "https://custom"); uc_model := None |}.

Definition full_settings : text :=
  settings [("ANTHROPIC_AUTH_TOKEN", "sys-key-0123456789");
            ("ANTHROPIC_BASE_URL", "https://proxy");
            ("ANTHROPIC_MODEL", "sys-model")]%string.

Definition custom : world :=
  world_of (<[userConfigPath manager := File (JSON_stringify_UserConfig custom_config)]>
            (<[systemConfigPath manager := File full_settings]> ∅)).

(** A user configuration that defers to the system, but still carries
    fields of its own. *)
Definition deferring_config : UserConfig :=
  {| useSystemDefaults := true; uc_apiKey := Some (lit "user-key");
     uc_baseUrl := Some (lit "https://custom"); uc_model := Some (lit "user-model") |}.

Definition deferring : world :=
  world_of (<[userConfigPath manager := File (JSON_stringify_UserConfig deferring_config)]>
            (<[systemConfigPath manager := File full_settings]> ∅)).

(** Both files are there and neither is JSON. *)
Definition corrupt : world :=
  world_of (<[userConfigPath manager := File (lit "{ not json")]>
            (<[systemConfigPath manager := File (lit "[1, 2")]> ∅)).

(** Settings without an [env] object. *)
Definition no_env : world :=
  world_of (<[systemConfigPath manager := File (lit "{}")]> ∅).

(** The second scenario of the specification: a custom config with an empty
    credential and its own endpoint, a system with a credential only. *)
Definition scenario_config : UserConfig :=
  {| useSystemDefaults := false; uc_apiKey := Some (lit "");
     uc_baseUrl := Some (lit "https://custom"); uc_model := None |}.

Definition scenario : world :=
  world_of (<[userConfigPath manager := File (JSON_stringify_UserConfig scenario_config)]>
            (files system_only)).

(** What [getSystemConfig] reads from [full_settings]. *)
Definition full_system : SystemConfig :=
  {| sc_apiKey := Some (lit "sys-key-0123456789");
     sc_baseUrl := Some (lit "https://proxy");
     sc_model := Some (lit "sys-model") |}.

Definition loaded_user : list (level * string) :=
  [(Info, "Loaded user config from {path}"%string)].

Definition loaded_both : list (level * string) :=
  [(Info, "Loaded user config from {path}"%string);
   (Info, "Loaded system config from {path}"%string)].

End Example.

(** ** Vocabulary of the further properties *)

(** From [w] to [w'] nothing happened but logging. *)
Definition only_logs (w w' : world) : Prop := exists entries, w' = append_log w entries.

(** A computation that only logs, whatever its outcome. *)
Definition reads_only {A} (m : M A) : Prop := forall w, only_logs w (m w).2.


(** The [UserConfig] that [handleSaveConfig] builds from a request. *)
Definition config_of_request (request : SaveConfigRequest) : UserConfig :=
  {| useSystemDefaults := req_useSystemDefaults request;
     uc_apiKey := req_apiKey request;
     uc_baseUrl := req_baseUrl request;
     uc_model := req_model request |}.

(** The path of the temp file of [saveUserConfig]. *)
Definition tempPath (this : ConfigManager) : path := path_suffix (userConfigPath this) ".tmp".

Module MoreExamples.

(** System settings with both credential keys and both model keys. *)
Definition both_keys : world :=
  Example.world_of
    (<[systemConfigPath Example.manager :=
         File (Example.settings [("ANTHROPIC_API_KEY", "api-key");
                                 ("ANTHROPIC_AUTH_TOKEN", "auth-token");
                                 ("ANTHROPIC_DEFAULT_SONNET_MODEL", "sonnet");
                                 ("ANTHROPIC_MODEL", "")]%string)]> ∅).

(** The home directory is a regular file: the config directory cannot be
    made. *)
Definition home_is_file : world :=
  Example.world_of (<[Example.home := File (lit "not a directory")]> ∅).

(** A directory sits where the canonical file should go. *)
Definition canon_is_dir : world :=
  Example.world_of (<[userConfigPath Example.manager := Dir]> ∅).

(** A request with a key of its own. *)
Definition keyed_config : UserConfig :=
  {| useSystemDefaults := false; uc_apiKey := Some (lit "sk-ant-api03-0123456789");
     uc_baseUrl := None; uc_model := Some (lit "claude-x") |}.

Definition keyed_request : Context :=
  {| req_body := JSON_stringify_UserConfig keyed_config |}.

(** The same request with the key masked, as the fetch handler shows it. *)
Definition masked_config : UserConfig :=
  {| useSystemDefaults := false; uc_apiKey := maskApiKey (Some (lit "sk-ant-api03-0123456789"));
     uc_baseUrl := None; uc_model := Some (lit "claude-x") |}.

Definition masked_request : Context :=
  {| req_body := JSON_stringify_UserConfig masked_config |}.

End MoreExamples.

(** * Properties *)

Local Close Scope N_scope.

(** ** Running monadic code *)

Lemma bind_Return {A B} (m : M A) (f : A -> M B) w a w' :
  m w = (Return a, w') -> (m ≫= f) w = f a w'.
Proof. intros H. unfold mbind, M_bind. now rewrite H. Qed.

Lemma bind_Throw {A B} (m : M A) (f : A -> M B) w e w' :
  m w = (Throw e, w') -> (m ≫= f) w = (Throw e, w').
Proof. intros H. unfold mbind, M_bind. now rewrite H. Qed.

Lemma bind_Unmodelled {A B} (m : M A) (f : A -> M B) w w' :
  m w = (Unmodelled, w') -> (m ≫= f) w = (Unmodelled, w').
Proof. intros H. unfold mbind, M_bind. now rewrite H. Qed.

Lemma try_catch_Return {A} (m : M A) h w a w' :
  m w = (Return a, w') -> try_catch m h w = (Return a, w').
Proof. intros H. unfold try_catch. now rewrite H. Qed.

Lemma try_catch_Throw {A} (m : M A) h w e w' :
  m w = (Throw e, w') -> try_catch m h w = h e w'.
Proof. intros H. unfold try_catch. now rewrite H. Qed.

Lemma try_catch_Unmodelled {A} (m : M A) h w w' :
  m w = (Unmodelled, w') -> try_catch m h w = (Unmodelled, w').
Proof. intros H. unfold try_catch. now rewrite H. Qed.

(** ** maskApiKey *)

Lemma substring_prefix (s : text) (n : nat) :
  n <= length s -> substring s 0 (Some (Z.of_nat n)) = take n s.
Proof.
  intros Hn. unfold substring, clamp, String_length.
  replace (Z.to_nat (Z.max 0 (Z.min 0 (Z.of_nat (length s))))) with 0%nat by lia.
  replace (Z.to_nat (Z.max 0 (Z.min (Z.of_nat n) (Z.of_nat (length s))))) with n by lia.
  rewrite Nat.max_r, Nat.min_l by lia. now rewrite Nat.sub_0_r.
Qed.

Lemma substring_suffix (s : text) (n : nat) :
  n <= length s -> substring s (String_length s - Z.of_nat n) None = drop (length s - n) s.
Proof.
  intros Hn. unfold substring, clamp, String_length.
  replace (Z.to_nat (Z.max 0 (Z.min (Z.of_nat (length s) - Z.of_nat n) (Z.of_nat (length s)))))
    with (length s - n)%nat by lia.
  rewrite Nat.max_r, Nat.min_l by lia.
  apply take_ge. rewrite length_drop. lia.
Qed.

Lemma maskApiKey_short (s : text) :
  s <> [] -> length s <= 10 -> maskApiKey (Some s) = Some (lit "***").
Proof.
  intros Hne Hlen. destruct s as [|c s]; [congruence|].
  unfold maskApiKey, String_length. simpl truthy. simpl negb. cbv iota.
  destruct (Z.leb_spec (Z.of_nat (length (c :: s))) 10) as [_|Hgt]; [reflexivity|lia].
Qed.

Lemma maskApiKey_long (s : text) :
  10 < length s ->
  maskApiKey (Some s) = Some (take 7 s ++ lit "..." ++ drop (length s - 3) s).
Proof.
  intros Hlen. destruct s as [|c s]; [simpl in Hlen; lia|].
  unfold maskApiKey. simpl truthy. simpl negb. cbv iota.
  destruct (Z.leb_spec (String_length (c :: s)) 10) as [Hle|_].
  { unfold String_length in Hle. lia. }
  change 7%Z with (Z.of_nat 7). change 3%Z with (Z.of_nat 3).
  rewrite substring_prefix, substring_suffix by lia. reflexivity.
Qed.

(** Masking is lossy: every credential shares its masked form with another
    one, so the masked form never determines the credential. *)
Lemma maskApiKey_lossy (k : text) :
  k <> [] -> exists k', k' <> k /\ maskApiKey (Some k') = maskApiKey (Some k).
Proof.
  intros Hne. destruct (le_lt_dec (length k) 10) as [Hs|Hl].
  - destruct k as [|c s]; [congruence|]. exists ((c + 1)%N :: s). split.
    + intros [= H]. lia.
    + rewrite !maskApiKey_short by (simpl in *; (discriminate || lia)). reflexivity.
  - exists (take 7 k ++ [0%N] ++ drop 7 k). split.
    + intros H. apply (f_equal length) in H.
      rewrite !length_app, length_take, length_drop in H. cbn [length] in H. lia.
    + assert (length (take 7 k ++ [0%N] ++ drop 7 k) = S (length k)) as Hlen.
      { rewrite !length_app, length_take, length_drop. cbn [length]. lia. }
      rewrite !maskApiKey_long by lia. rewrite Hlen. do 2 f_equal.
      * rewrite take_app_le by (rewrite length_take; lia).
        apply take_take.
      * f_equal. rewrite drop_app_ge by (rewrite length_take; lia).
        rewrite length_take. replace (S (length k) - 3 - 7 `min` length k) with (S (length k - 10)) by lia.
        cbn [app drop]. rewrite drop_drop. f_equal. lia.
Qed.

(** C3 as stated fails on the empty string: it has length at most 10 and is
    masked to [undefined], not to the placeholder. *)
Lemma maskApiKey_empty_string_counterexample :
  ~ (forall s : text, (length s <= 10)%nat -> maskApiKey (Some s) = Some MASK_PLACEHOLDER).
Proof. intros H. specialize (H (lit "") ltac:(simpl; lia)). discriminate H. Qed.

(** C3 (amended): [maskApiKey] maps an absent input and the empty string to
    an absent output; a non-empty secret of at most 10 code units to the
    fixed placeholder, whatever its length and characters; and a secret of
    more than 10 code units to its first 7 code units, the ellipsis marker,
    and its last 3 code units. *)
Theorem maskApiKey_cases (secret : option text) :
  match secret with
  | None => maskApiKey secret = None
  | Some s =>
      (s = [] -> maskApiKey secret = None) /\
      (s <> [] -> (length s <= 10)%nat -> maskApiKey secret = Some (lit "***")) /\
      ((10 < length s)%nat ->
         maskApiKey secret = Some (take 7 s ++ lit "..." ++ drop (length s - 3) s))
  end.
Proof.
  destruct secret as [s|]; [|reflexivity].
  split; [|split].
  - intros ->. reflexivity.
  - apply maskApiKey_short.
  - apply maskApiKey_long.
Qed.

Lemma maskApiKey_cases_witness :
  maskApiKey (Some (lit "sk-ant-1234567890")) = Some (lit "sk-ant-...890")
  /\ maskApiKey (Some (lit "short")) = Some (lit "***").
Proof.
  split.
  - apply (proj2 (proj2 (maskApiKey_cases (Some (lit "sk-ant-1234567890"))))). simpl. lia.
  - apply (proj1 (proj2 (maskApiKey_cases (Some (lit "short"))))); [discriminate | simpl; lia].
Defined.

(** ** getEffectiveConfig *)

Lemma or_default_first_nonempty (a : option text) (d : text) :
  or_default a d = first_nonempty [a] d.
Proof. destruct a as [[|c s]|]; reflexivity. Qed.

Lemma or_else_first_nonempty (a b : option text) (d : text) :
  or_default (or_else a b) d = first_nonempty [a; b] d.
Proof. destruct a as [[|c s]|], b as [[|c' s']|]; reflexivity. Qed.

Lemma first_nonempty_default (a : option text) : first_nonempty [a] [] = default [] a.
Proof. destruct a as [[|c s]|]; reflexivity. Qed.

Lemma first_nonempty_ne (cs : list (option text)) (d : text) :
  d <> [] -> first_nonempty cs d <> [].
Proof.
  intros Hd. induction cs as [|[[|c s]|] cs IH]; simpl; try assumption. discriminate.
Qed.

(** What [getEffectiveConfig] returns, from what the two loads return. *)
Lemma getEffectiveConfig_run this w user w1 sys w2 :
  getUserConfig this w = (Return user, w1) ->
  getSystemConfig this w1 = (Return sys, w2) ->
  getEffectiveConfig this w =
    (Return (if wants_system_defaults user then
               {| apiKey := first_nonempty [sc_apiKey sys] [];
                  baseUrl := first_nonempty [sc_baseUrl sys] DEFAULT_CONFIG_baseUrl;
                  model := first_nonempty [sc_model sys] DEFAULT_CONFIG_model |}
             else match user with
                  | Some c =>
                      {| apiKey := first_nonempty [uc_apiKey c; sc_apiKey sys] [];
                         baseUrl := first_nonempty [uc_baseUrl c] DEFAULT_CONFIG_baseUrl;
                         model := first_nonempty [uc_model c] DEFAULT_CONFIG_model |}
                  | None =>
                      {| apiKey := first_nonempty [sc_apiKey sys] [];
                         baseUrl := first_nonempty [sc_baseUrl sys] DEFAULT_CONFIG_baseUrl;
                         model := first_nonempty [sc_model sys] DEFAULT_CONFIG_model |}
                  end), w2).
Proof.
  intros Hu Hs. unfold getEffectiveConfig.
  rewrite (bind_Return _ _ _ _ _ Hu), (bind_Return _ _ _ _ _ Hs).
  destruct user as [c|]; simpl.
  - destruct (useSystemDefaults c); simpl;
      rewrite ?or_else_first_nonempty, ?or_default_first_nonempty; reflexivity.
  - rewrite !or_default_first_nonempty. reflexivity.
Qed.

(** C1 as stated fails when the user credential is blank but not empty.  The
    user config has [useSystemDefaults == false] and an [apiKey] of one
    space, which is blank (empty after trimming); the system has a
    credential.  The claim gives the system credential as effective
    [apiKey]; [getEffectiveConfig] returns the space. *)
Lemma getEffectiveConfig_blank_apiKey_counterexample :
  let w1 := append_log Example.custom Example.loaded_user in
  let w2 := append_log Example.custom Example.loaded_both in
  getUserConfig Example.manager Example.custom = (Return (Some Example.custom_config), w1)
  /\ getSystemConfig Example.manager w1 = (Return Example.full_system, w2)
  /\ useSystemDefaults Example.custom_config = false
  /\ uc_apiKey Example.custom_config = Some (lit " ")
  /\ blank (lit " ")
  /\ first_nonblank [uc_apiKey Example.custom_config; sc_apiKey Example.full_system] (lit "")
     = lit "sys-key-0123456789"
  /\ exists e,
       getEffectiveConfig Example.manager Example.custom = (Return e, w2)
       /\ apiKey e = lit " "
       /\ apiKey e <> first_nonblank [uc_apiKey Example.custom_config;
                                      sc_apiKey Example.full_system] (lit "").
Proof.
  repeat split; try (vm_compute; reflexivity).
  eexists. split; [vm_compute; reflexivity|]. split; [reflexivity|discriminate].
Qed.

(** C1 (amended): when the user config is present with
    [useSystemDefaults == false], [getEffectiveConfig] returns as [apiKey]
    the user [apiKey] if it is present and not the empty string (nothing is
    trimmed), else the system [apiKey] if it is present and not the empty
    string, else the empty string; and as [baseUrl] (resp. [model]) the user
    value if present and not the empty string, else the built-in default.
    The system [baseUrl] and [model] do not occur in the result. *)
Theorem getEffectiveConfig_custom this w w1 w2 (c : UserConfig) (sys : SystemConfig) :
  getUserConfig this w = (Return (Some c), w1) ->
  getSystemConfig this w1 = (Return sys, w2) ->
  useSystemDefaults c = false ->
  getEffectiveConfig this w =
    (Return {| apiKey := first_nonempty [uc_apiKey c; sc_apiKey sys] (lit "");
               baseUrl := first_nonempty [uc_baseUrl c] (lit "https://api.anthropic.com");
               model := first_nonempty [uc_model c] (lit "claude-sonnet-4-20250514") |}, w2).
Proof.
  intros Hu Hs Hc. rewrite (getEffectiveConfig_run _ _ _ _ _ _ Hu Hs).
  simpl. rewrite Hc. reflexivity.
Qed.

Lemma getEffectiveConfig_custom_witness :
  getEffectiveConfig Example.manager Example.custom =
    (Return {| apiKey := lit " "; baseUrl := lit "https://custom";
               model := lit "claude-sonnet-4-20250514" |},
     append_log Example.custom Example.loaded_both).
Proof.
  refine (getEffectiveConfig_custom Example.manager Example.custom
            (append_log Example.custom Example.loaded_user) _
            Example.custom_config Example.full_system _ _ _).
  - vm_compute. reflexivity.
  - vm_compute. reflexivity.
  - reflexivity.
Defined.

(** C2: when the user config has [useSystemDefaults == true], and likewise
    when there is no user config, [getEffectiveConfig] returns the system
    [apiKey] or the empty string, the system [baseUrl] or the built-in
    default, and the system [model] or the built-in default; no field of the
    user config occurs in the result. *)
Theorem getEffectiveConfig_system this w w1 w2 (user : option UserConfig) (sys : SystemConfig) :
  getUserConfig this w = (Return user, w1) ->
  getSystemConfig this w1 = (Return sys, w2) ->
  (user = None \/ exists c, user = Some c /\ useSystemDefaults c = true) ->
  getEffectiveConfig this w =
    (Return {| apiKey := default (lit "") (sc_apiKey sys);
               baseUrl := first_nonempty [sc_baseUrl sys] (lit "https://api.anthropic.com");
               model := first_nonempty [sc_model sys] (lit "claude-sonnet-4-20250514") |}, w2).
Proof.
  intros Hu Hs Hc. rewrite (getEffectiveConfig_run _ _ _ _ _ _ Hu Hs).
  rewrite first_nonempty_default.
  destruct Hc as [-> | (c & -> & Hc)]; simpl; [reflexivity|].
  rewrite Hc. reflexivity.
Qed.

Lemma getEffectiveConfig_system_witness :
  getEffectiveConfig Example.manager Example.deferring =
    (Return {| apiKey := lit "sys-key-0123456789"; baseUrl := lit "https://proxy";
               model := lit "sys-model" |},
     append_log Example.deferring Example.loaded_both).
Proof.
  refine (getEffectiveConfig_system Example.manager Example.deferring
            (append_log Example.deferring Example.loaded_user) _
            (Some Example.deferring_config) Example.full_system _ _ _).
  - vm_compute. reflexivity.
  - vm_compute. reflexivity.
  - right. exists Example.deferring_config. split; reflexivity.
Defined.

(** C4: whatever the user config (present or absent, any field values) and
    the system config, [getEffectiveConfig] returns a [baseUrl] and a [model]
    that are not the empty string; the [apiKey] it returns can be the empty
    string (on a machine with neither file it is). *)
Theorem getEffectiveConfig_populated :
  (forall this w w1 w2 (user : option UserConfig) (sys : SystemConfig),
      getUserConfig this w = (Return user, w1) ->
      getSystemConfig this w1 = (Return sys, w2) ->
      exists e, getEffectiveConfig this w = (Return e, w2)
                /\ baseUrl e <> lit "" /\ model e <> lit "")
  /\ (exists this w e w', getEffectiveConfig this w = (Return e, w') /\ apiKey e = lit "").
Proof.
  split.
  - intros this w w1 w2 user sys Hu Hs.
    rewrite (getEffectiveConfig_run _ _ _ _ _ _ Hu Hs). eexists. split; [reflexivity|].
    destruct (wants_system_defaults user); [|destruct user]; cbn [baseUrl model];
      split; apply first_nonempty_ne; discriminate.
  - exists Example.manager, Example.fresh. eexists _, _. split; [vm_compute; reflexivity|].
    reflexivity.
Qed.

Lemma getEffectiveConfig_populated_witness :
  exists e, getEffectiveConfig Example.manager Example.custom
            = (Return e, append_log Example.custom Example.loaded_both)
            /\ baseUrl e <> lit "" /\ model e <> lit "".
Proof.
  refine (proj1 getEffectiveConfig_populated Example.manager Example.custom
            (append_log Example.custom Example.loaded_user) _
            (Some Example.custom_config) Example.full_system _ _).
  - vm_compute. reflexivity.
  - vm_compute. reflexivity.
Defined.

(** The scenarios of the specification. *)

Example scenario_system_only :
  (getEffectiveConfig Example.manager Example.system_only).1
  = Return {| apiKey := lit "sys-key"; baseUrl := lit "https://api.anthropic.com";
              model := lit "claude-sonnet-4-20250514" |}.
Proof. vm_compute. reflexivity. Qed.

Example scenario_empty_user_credential :
  (getEffectiveConfig Example.manager Example.scenario).1
  = Return {| apiKey := lit "sys-key"; baseUrl := lit "https://custom";
              model := lit "claude-sonnet-4-20250514" |}.
Proof. vm_compute. reflexivity. Qed.

(** ** Loading *)

Lemma logger_then_ret {A} (l : level) (message : string) (a : A) w :
  (logger l message;; mret a) w = (Return a, append_log w [(l, message)]).
Proof. reflexivity. Qed.

Lemma readFile_cases p w :
  (exists c, readFile p w = (Throw (SystemError c), w)
             /\ (under_file (files w) p = true
                 \/ node_at (files w) p = None \/ node_at (files w) p = Some Dir))
  \/ (exists data, readFile p w = (Return data, w)
                   /\ under_file (files w) p = false
                   /\ node_at (files w) p = Some (File data)).
Proof.
  unfold readFile. destruct (under_file (files w) p) eqn:Hu; [left; eauto|].
  destruct (node_at (files w) p) as [[|data]|] eqn:Hn; [left|right|left]; eauto 6.
Qed.

(** The [catch] clause of [getUserConfig]: whatever was thrown, the answer
    is [null]. *)
Lemma getUserConfig_catch (e : error) w :
  exists entry,
    (if bool_decide (code e = Some "ENOENT"%string)
     then logger Info "No user config found";; mret (@None UserConfig)
     else logger Warn "Failed to read user config: {error}";; mret None) w
    = (Return None, append_log w [entry])
    /\ (code e <> Some "ENOENT"%string ->
        entry = (Warn, "Failed to read user config: {error}"%string)).
Proof.
  case_bool_decide; eexists; (split; [apply logger_then_ret|]); congruence.
Qed.

Lemma getSystemConfig_catch (e : error) w :
  exists entry,
    (if bool_decide (code e = Some "ENOENT"%string)
     then logger Warn "No system config found at {path}";; mret empty_SystemConfig
     else logger Warn "Failed to read system config: {error}";; mret empty_SystemConfig) w
    = (Return empty_SystemConfig, append_log w [entry]).
Proof. case_bool_decide; eexists; apply logger_then_ret. Qed.

Lemma getUserConfig_no_throw this w : no_throw (getUserConfig this w).
Proof.
  unfold no_throw, getUserConfig, try_catch.
  match goal with |- context [match ?b w with _ => _ end] => destruct (b w) as [[a|e|] w'] end;
    simpl; trivial.
  destruct (getUserConfig_catch e w') as (entry & -> & _). exact I.
Qed.

Lemma getSystemConfig_no_throw this w : no_throw (getSystemConfig this w).
Proof.
  unfold no_throw, getSystemConfig, try_catch.
  match goal with |- context [match ?b w with _ => _ end] => destruct (b w) as [[a|e|] w'] end;
    simpl; trivial.
  destruct (getSystemConfig_catch e w') as (entry & -> ). exact I.
Qed.

(** [getUserConfig] when reading the file throws. *)
Lemma getUserConfig_unreadable this w c :
  readFile (userConfigPath this) w = (Throw (SystemError c), w) ->
  (getUserConfig this w).1 = Return None.
Proof.
  intros Hr. unfold getUserConfig.
  rewrite (try_catch_Throw _ _ _ _ _ (bind_Throw _ _ _ _ _ Hr)).
  destruct (getUserConfig_catch (SystemError c) w) as (entry & -> & _). reflexivity.
Qed.

Lemma getSystemConfig_unreadable this w c :
  readFile (systemConfigPath this) w = (Throw (SystemError c), w) ->
  (getSystemConfig this w).1 = Return empty_SystemConfig.
Proof.
  intros Hr. unfold getSystemConfig.
  rewrite (try_catch_Throw _ _ _ _ _ (bind_Throw _ _ _ _ _ Hr)).
  destruct (getSystemConfig_catch (SystemError c) w) as (entry & ->). reflexivity.
Qed.

Lemma JSON_parse_fails data w :
  JSON.parse data = None -> JSON_parse data w = (Throw SyntaxError, w).
Proof. intros H. unfold JSON_parse. now rewrite H. Qed.

Lemma JSON_parse_returns data v w :
  JSON.parse data = Some v -> JSON_parse data w = (Return v, w).
Proof. intros H. unfold JSON_parse. now rewrite H. Qed.

Lemma getUserConfig_corrupt this w data :
  node_at (files w) (userConfigPath this) = Some (File data) ->
  JSON.parse data = None ->
  getUserConfig this w
  = (Return None, append_log w [(Warn, "Failed to read user config: {error}"%string)]).
Proof.
  intros Hn Hp. unfold getUserConfig.
  destruct (readFile_cases (userConfigPath this) w)
    as [(c & Hr & Hc) | (data' & Hr & _ & Hn')].
  - rewrite (try_catch_Throw _ _ _ _ _ (bind_Throw _ _ _ _ _ Hr)).
    assert (c = "ENOTDIR"%string) as ->.
    { unfold readFile in Hr. destruct (under_file (files w) (userConfigPath this)).
      - congruence.
      - rewrite Hn in Hr. discriminate. }
    reflexivity.
  - assert (data' = data) as -> by congruence.
    rewrite (try_catch_Throw _ _ w SyntaxError w); [reflexivity|].
    rewrite (bind_Return _ _ _ _ _ Hr).
    apply bind_Throw, JSON_parse_fails, Hp.
Qed.

Lemma getSystemConfig_corrupt this w data :
  node_at (files w) (systemConfigPath this) = Some (File data) ->
  JSON.parse data = None ->
  (getSystemConfig this w).1 = Return empty_SystemConfig.
Proof.
  intros Hn Hp.
  destruct (readFile_cases (systemConfigPath this) w)
    as [(c & Hr & Hc) | (data' & Hr & _ & Hn')].
  - eapply getSystemConfig_unreadable, Hr.
  - assert (data' = data) as -> by congruence. unfold getSystemConfig.
    rewrite (try_catch_Throw _ _ w SyntaxError w).
    + destruct (getSystemConfig_catch SyntaxError w) as (entry & ->). reflexivity.
    + rewrite (bind_Return _ _ _ _ _ Hr). apply bind_Throw, JSON_parse_fails, Hp.
Qed.

Lemma get_returns v k x w : JSON.get v (lit k) = Some x -> get v k w = (Return x, w).
Proof. intros H. unfold get. now rewrite H. Qed.

Lemma get_throws v k w : JSON.get v (lit k) = None -> get v k w = (Throw TypeError, w).
Proof. intros H. unfold get. now rewrite H. Qed.

Lemma getSystemConfig_no_keys this w data settings :
  node_at (files w) (systemConfigPath this) = Some (File data) ->
  JSON.parse data = Some settings ->
  no_recognized_key settings ->
  (getSystemConfig this w).1 = Return empty_SystemConfig.
Proof.
  intros Hn Hp Hk.
  destruct (readFile_cases (systemConfigPath this) w)
    as [(c & Hr & Hc) | (data' & Hr & _ & Hn')].
  - eapply getSystemConfig_unreadable, Hr.
  - assert (data' = data) as -> by congruence. unfold getSystemConfig.
    destruct (JSON.get settings (lit "env")) as [env|] eqn:Henv.
    + specialize (Hk env Henv). unfold recognized_keys in Hk.
      repeat match type of Hk with
             | Forall _ (_ :: _) => apply Forall_cons in Hk; destruct Hk as [? Hk]
             end.
      repeat match goal with
             | H : JSON.get _ (lit _) = Some _ |- _ => apply (get_returns _ _ _ w) in H
             end.
      unfold try_catch, mbind, M_bind.
      rewrite Hr, (JSON_parse_returns _ _ _ Hp), Henv. cbv zeta.
      repeat match goal with
             | H : get _ _ w = _ |- _ => rewrite H; clear H
             end.
      reflexivity.
    + rewrite (try_catch_Throw _ _ w TypeError w).
      * destruct (getSystemConfig_catch TypeError w) as (entry & ->). reflexivity.
      * rewrite (bind_Return _ _ _ _ _ Hr).
        rewrite (bind_Return _ _ _ _ _ (JSON_parse_returns _ _ _ Hp)).
        apply bind_Throw, get_throws, Henv.
Qed.

(** C6: loading never raises to the caller.  [getUserConfig] does not throw;
    it returns [null] when the user config file does not exist, and returns
    [null] after logging a warning when the file exists and is not JSON.
    [getSystemConfig] does not throw; it returns the empty config (every
    field absent) when the system file is missing, when it is not JSON, and
    when it has none of the recognized keys. *)
Theorem loading_never_raises (this : ConfigManager) (w : world) :
  no_throw (getUserConfig this w)
  /\ (node_at (files w) (userConfigPath this) = None ->
      (getUserConfig this w).1 = Return None)
  /\ (forall data,
        node_at (files w) (userConfigPath this) = Some (File data) ->
        JSON.parse data = None ->
        getUserConfig this w
        = (Return None, append_log w [(Warn, "Failed to read user config: {error}"%string)]))
  /\ no_throw (getSystemConfig this w)
  /\ (node_at (files w) (systemConfigPath this) = None ->
      (getSystemConfig this w).1 = Return empty_SystemConfig)
  /\ (forall data,
        node_at (files w) (systemConfigPath this) = Some (File data) ->
        JSON.parse data = None ->
        (getSystemConfig this w).1 = Return empty_SystemConfig)
  /\ (forall data settings,
        node_at (files w) (systemConfigPath this) = Some (File data) ->
        JSON.parse data = Some settings ->
        no_recognized_key settings ->
        (getSystemConfig this w).1 = Return empty_SystemConfig).
Proof.
  split; [apply getUserConfig_no_throw|].
  split.
  { intros Hn. destruct (readFile_cases (userConfigPath this) w)
      as [(c & Hr & _) | (data & _ & _ & Hn')]; [|congruence].
    eapply getUserConfig_unreadable, Hr. }
  split; [apply getUserConfig_corrupt|].
  split; [apply getSystemConfig_no_throw|].
  split.
  { intros Hn. destruct (readFile_cases (systemConfigPath this) w)
      as [(c & Hr & _) | (data & _ & _ & Hn')]; [|congruence].
    eapply getSystemConfig_unreadable, Hr. }
  split; [apply getSystemConfig_corrupt|apply getSystemConfig_no_keys].
Qed.

Lemma loading_never_raises_witness :
  (getUserConfig Example.manager Example.fresh).1 = Return None
  /\ getUserConfig Example.manager Example.corrupt
     = (Return None,
        append_log Example.corrupt [(Warn, "Failed to read user config: {error}"%string)])
  /\ (getSystemConfig Example.manager Example.fresh).1 = Return empty_SystemConfig
  /\ (getSystemConfig Example.manager Example.corrupt).1 = Return empty_SystemConfig
  /\ (getSystemConfig Example.manager Example.no_env).1 = Return empty_SystemConfig.
Proof.
  pose proof (loading_never_raises Example.manager Example.fresh) as (_ & U1 & _ & _ & S1 & _).
  pose proof (loading_never_raises Example.manager Example.corrupt) as (_ & _ & U2 & _ & _ & S2 & _).
  pose proof (loading_never_raises Example.manager Example.no_env) as (_ & _ & _ & _ & _ & _ & S3).
  split; [apply U1; reflexivity|].
  split; [apply (U2 (lit "{ not json")); vm_compute; reflexivity|].
  split; [apply S1; reflexivity|].
  split; [apply (S2 (lit "[1, 2")); vm_compute; reflexivity|].
  apply (S3 (lit "{}") (JSON.VObj [])); [vm_compute; reflexivity | vm_compute; reflexivity|].
  intros env Henv. injection Henv as <-.
  repeat constructor.
Defined.

(** ** The handlers *)

Lemma truthy_found (a : option text) : truthy a = true <-> exists k, a = Some k /\ k <> [].
Proof.
  destruct a as [[|c s]|]; simpl; split.
  - discriminate.
  - intros (k & [= <-] & Hk). congruence.
  - intros _. eexists. split; [reflexivity | discriminate].
  - reflexivity.
  - discriminate.
  - intros (k & Hk & _). discriminate.
Qed.

Lemma handleGetSystemConfig_run c w sys w1 :
  getSystemConfig (ConfigManager_new (homedir w)) w = (Return sys, w1) ->
  handleGetSystemConfig c w
  = (Return {| status := 200%N;
               body := JSON.VObj [(lit "hasSystemConfig", JSON.VBool (truthy (sc_apiKey sys)));
                                  (lit "baseUrl", of_optional_string (sc_baseUrl sys));
                                  (lit "model", of_optional_string (sc_model sys))] |}, w1).
Proof.
  intros Hs. unfold handleGetSystemConfig, try_catch, mbind, M_bind, getConfigManager.
  rewrite Hs. reflexivity.
Qed.

(** C7: the system-config summary has [hasSystemConfig] true if and only if
    a system credential was found, and has no [apiKey] field; two system
    configs that differ only in the value of their credential get the same
    response. *)
Theorem handleGetSystemConfig_summary (c : Context) (w w1 : world) (sys : SystemConfig) :
  getSystemConfig (ConfigManager_new (homedir w)) w = (Return sys, w1) ->
  exists (found : bool) (fields : list (text * JSON.value)),
    handleGetSystemConfig c w = (Return {| status := 200%N; body := JSON.VObj fields |}, w1)
    /\ JSON.lookup_member (lit "hasSystemConfig") fields = Some (JSON.VBool found)
    /\ (found = true <-> exists k, sc_apiKey sys = Some k /\ k <> lit "")
    /\ JSON.lookup_member (lit "apiKey") fields = None
    /\ (forall (c' : Context) (v v1 : world) (sys' : SystemConfig),
          getSystemConfig (ConfigManager_new (homedir v)) v = (Return sys', v1) ->
          sc_baseUrl sys' = sc_baseUrl sys ->
          sc_model sys' = sc_model sys ->
          ((exists k, sc_apiKey sys' = Some k /\ k <> lit "")
           <-> (exists k, sc_apiKey sys = Some k /\ k <> lit "")) ->
          (handleGetSystemConfig c' v).1 = (handleGetSystemConfig c w).1).
Proof.
  intros Hs. eexists _, _. split; [apply handleGetSystemConfig_run, Hs|].
  split; [reflexivity|]. split; [apply truthy_found|]. split; [reflexivity|].
  intros c' v v1 sys' Hs' Hb Hm Hk.
  rewrite (handleGetSystemConfig_run _ _ _ _ Hs'), (handleGetSystemConfig_run _ _ _ _ Hs).
  rewrite <- !truthy_found in Hk.
  assert (truthy (sc_apiKey sys') = truthy (sc_apiKey sys)) as Ht.
  { destruct (truthy (sc_apiKey sys')), (truthy (sc_apiKey sys)); try reflexivity.
    - symmetry. now apply Hk.
    - now apply Hk. }
  simpl. now rewrite Hb, Hm, Ht.
Qed.

Lemma handleGetSystemConfig_summary_witness :
  exists (found : bool) (fields : list (text * JSON.value)),
    handleGetSystemConfig {| req_body := [] |} Example.custom
    = (Return {| status := 200%N; body := JSON.VObj fields |},
       append_log Example.custom [(Info, "Loaded system config from {path}"%string)])
    /\ JSON.lookup_member (lit "hasSystemConfig") fields = Some (JSON.VBool found)
    /\ (found = true <-> exists k, sc_apiKey Example.full_system = Some k /\ k <> lit "")
    /\ JSON.lookup_member (lit "apiKey") fields = None.
Proof.
  destruct (handleGetSystemConfig_summary {| req_body := [] |} Example.custom
              (append_log Example.custom [(Info, "Loaded system config from {path}"%string)])
              Example.full_system ltac:(vm_compute; reflexivity))
    as (found & fields & H1 & H2 & H3 & H4 & _).
  exists found, fields. auto.
Defined.

Lemma handleGetConfig_run c w user w1 sys w2 :
  getUserConfig (ConfigManager_new (homedir w)) w = (Return user, w1) ->
  getSystemConfig (ConfigManager_new (homedir w)) w1 = (Return sys, w2) ->
  handleGetConfig c w
  = (Return (c_json
               match user with
               | None => UserConfigResponse true (maskApiKey (sc_apiKey sys))
                           (sc_baseUrl sys) (sc_model sys)
               | Some u => UserConfigResponse (useSystemDefaults u) (maskApiKey (uc_apiKey u))
                             (uc_baseUrl u) (uc_model u)
               end 200%N), w2).
Proof.
  intros Hu Hs. unfold handleGetConfig, try_catch, mbind, M_bind, getConfigManager.
  rewrite Hu, Hs. destruct user; reflexivity.
Qed.

(** C10: when there is no user config, the fetch-user-config handler answers
    with status 200 and an object whose [useSystemDefaults] is [true], whose
    [baseUrl] and [model] are those of the system config, and whose [apiKey]
    is [maskApiKey] of the system credential.  The raw credential is not
    what the response carries: the response is the same for any two system
    credentials with the same mask, and every credential shares its mask
    with a different one. *)
Theorem handleGetConfig_no_user_config (c : Context) (w w1 w2 : world) (sys : SystemConfig) :
  getUserConfig (ConfigManager_new (homedir w)) w = (Return None, w1) ->
  getSystemConfig (ConfigManager_new (homedir w)) w1 = (Return sys, w2) ->
  handleGetConfig c w
  = (Return {| status := 200%N;
               body := JSON.VObj [(lit "useSystemDefaults", JSON.VBool true);
                                  (lit "apiKey", of_optional_string (maskApiKey (sc_apiKey sys)));
                                  (lit "baseUrl", of_optional_string (sc_baseUrl sys));
                                  (lit "model", of_optional_string (sc_model sys))] |}, w2)
  /\ (forall (c' : Context) (v v1 v2 : world) (sys' : SystemConfig),
        getUserConfig (ConfigManager_new (homedir v)) v = (Return None, v1) ->
        getSystemConfig (ConfigManager_new (homedir v)) v1 = (Return sys', v2) ->
        maskApiKey (sc_apiKey sys') = maskApiKey (sc_apiKey sys) ->
        sc_baseUrl sys' = sc_baseUrl sys ->
        sc_model sys' = sc_model sys ->
        (handleGetConfig c' v).1 = (handleGetConfig c w).1)
  /\ (forall k, sc_apiKey sys = Some k -> k <> lit "" ->
        exists k', k' <> k /\ maskApiKey (Some k') = maskApiKey (sc_apiKey sys)).
Proof.
  intros Hu Hs. split; [apply (handleGetConfig_run _ _ _ _ _ _ Hu Hs)|]. split.
  - intros c' v v1 v2 sys' Hu' Hs' Hk Hb Hm.
    rewrite (handleGetConfig_run _ _ _ _ _ _ Hu' Hs'), (handleGetConfig_run _ _ _ _ _ _ Hu Hs).
    simpl. now rewrite Hk, Hb, Hm.
  - intros k -> Hk. now apply maskApiKey_lossy.
Qed.

Lemma handleGetConfig_no_user_config_witness :
  handleGetConfig {| req_body := [] |} Example.system_only
  = (Return {| status := 200%N;
               body := JSON.VObj [(lit "useSystemDefaults", JSON.VBool true);
                                  (lit "apiKey", JSON.VStr (lit "***"));
                                  (lit "baseUrl", JSON.VUndefined);
                                  (lit "model", JSON.VUndefined)] |},
     append_log Example.system_only
       [(Info, "No user config found"%string);
        (Info, "Loaded system config from {path}"%string)]).
Proof.
  refine (proj1 (handleGetConfig_no_user_config {| req_body := [] |} Example.system_only
            (append_log Example.system_only [(Info, "No user config found"%string)]) _
            {| sc_apiKey := Some (lit "sys-key"); sc_baseUrl := None; sc_model := None |} _ _)).
  - vm_compute. reflexivity.
  - vm_compute. reflexivity.
Defined.

(** C5: a save request with [useSystemDefaults == false] and an [apiKey]
    that is absent or blank (empty after trimming) is answered with status
    400 and the reason "API key is required"; nothing is written: the world
    after the call, files and log, is the world before it. *)
Theorem handleSaveConfig_rejects (c : Context) (w : world)
    (json : JSON.value) (request : SaveConfigRequest) :
  JSON.parse (req_body c) = Some json ->
  as_SaveConfigRequest json = Some request ->
  req_useSystemDefaults request = false ->
  (req_apiKey request = None \/ exists k, req_apiKey request = Some k /\ blank k) ->
  handleSaveConfig c w
  = (Return {| status := 400%N;
               body := JSON.VObj [(lit "error", JSON.VStr (lit "API key is required"))] |}, w).
Proof.
  intros Hp Hr Hd Hk.
  unfold handleSaveConfig, try_catch, mbind, M_bind, getConfigManager.
  rewrite (JSON_parse_returns _ _ _ Hp), Hr. cbn [cast mret M_ret]. rewrite Hd. cbn [negb].
  destruct Hk as [-> | (k & -> & Hk)]; [reflexivity|].
  unfold blank in Hk. cbn [default]. rewrite (bool_decide_eq_true_2 _ Hk), orb_true_r.
  reflexivity.
Qed.

Lemma handleSaveConfig_rejects_witness :
  handleSaveConfig
    {| req_body := JSON_stringify_UserConfig
                     {| useSystemDefaults := false; uc_apiKey := Some (lit "  ");
                        uc_baseUrl := None; uc_model := None |} |}
    Example.custom
  = (Return {| status := 400%N;
               body := JSON.VObj [(lit "error", JSON.VStr (lit "API key is required"))] |},
     Example.custom).
Proof.
  refine (handleSaveConfig_rejects _ Example.custom
            (JSON.VObj [(lit "useSystemDefaults", JSON.VBool false);
                        (lit "apiKey", JSON.VStr (lit "  "))])
            {| req_useSystemDefaults := false; req_apiKey := Some (lit "  ");
               req_baseUrl := None; req_model := None |} _ _ _ _).
  - vm_compute. reflexivity.
  - vm_compute. reflexivity.
  - reflexivity.
  - right. exists (lit "  "). split; reflexivity.
Defined.

Example scenario_save_rejected :
  handleSaveConfig {| req_body := JSON_stringify_UserConfig Example.scenario_config |}
    Example.system_only
  = (Return {| status := 400%N;
               body := JSON.VObj [(lit "error", JSON.VStr (lit "API key is required"))] |},
     Example.system_only).
Proof. vm_compute. reflexivity. Qed.

(** ** The file system *)

Lemma elem_of_prefixes (p q : path) (n : nat) :
  q ∈ prefixes p n <-> exists k, 1 <= k <= n /\ q = take k p.
Proof.
  unfold prefixes. rewrite list_elem_of_fmap. split.
  - intros (k & -> & Hk). apply elem_of_seq in Hk. exists k. split; [lia|reflexivity].
  - intros (k & Hk & ->). exists k. split; [reflexivity|]. apply elem_of_seq. lia.
Qed.

Lemma prefixes_snoc (p : path) (x : string) (n : nat) :
  n <= length p -> prefixes (p ++ [x]) n = prefixes p n.
Proof.
  intros Hn. unfold prefixes. apply list_fmap_ext. intros i k Hk.
  apply lookup_seq in Hk as [-> Hi]. apply take_app_le. lia.
Qed.

Lemma prefix_shorter (p q : path) (n : nat) : q ∈ prefixes p n -> length q <= length p.
Proof. intros (k & _ & ->)%elem_of_prefixes. rewrite length_take. lia. Qed.

Lemma child_not_prefix (p : path) (x : string) (n : nat) : p ++ [x] ∉ prefixes p n.
Proof. intros H%prefix_shorter. rewrite length_app in H. simpl in H. lia. Qed.

Lemma parent_snoc (p : path) (x : string) : parent (p ++ [x]) = p.
Proof.
  unfold parent. rewrite length_app. simpl.
  replace (length p + 1 - 1) with (length p) by lia. apply take_app_length.
Qed.

Lemma path_suffix_snoc (p : path) (x suffix : string) :
  path_suffix (p ++ [x]) suffix = p ++ [x +:+ suffix].
Proof. unfold path_suffix. now rewrite last_snoc, parent_snoc. Qed.

Lemma under_file_false (fs : gmap path node) (p : path) :
  (forall q, q ∈ prefixes p (length p - 1) -> is_file (fs !! q) = false) ->
  under_file fs p = false.
Proof.
  intros H. unfold under_file. destruct (existsb _ _) eqn:E; [|reflexivity].
  apply existsb_exists in E as (q & Hq & Hf). apply list_elem_of_In in Hq.
  rewrite (H q Hq) in Hf. discriminate.
Qed.

Lemma prefixes_le_subset (p q : path) (n m : nat) :
  n <= m -> q ∈ prefixes p n -> q ∈ prefixes p m.
Proof.
  intros Hnm (k & Hk & ->)%elem_of_prefixes. apply elem_of_prefixes. exists k. split; [lia|easy].
Qed.

Lemma node_at_nonempty (fs : gmap path node) (p : path) : p <> [] -> node_at fs p = fs !! p.
Proof. destruct p; [congruence|reflexivity]. Qed.

Lemma length_nonempty (p : path) : p <> [] -> 1 <= length p.
Proof. destruct p; [congruence|simpl; lia]. Qed.

Section Ready.

Variables (fs : gmap path node) (dir : path).
Hypothesis ready : dirs_ready fs dir.

Lemma ready_under_file : under_file fs dir = false.
Proof.
  apply under_file_false. intros q Hq.
  rewrite (ready q); [reflexivity|]. eapply prefixes_le_subset, Hq. lia.
Qed.

Lemma ready_child_under_file (x : string) : under_file fs (dir ++ [x]) = false.
Proof.
  apply under_file_false. intros q Hq. rewrite length_app in Hq. simpl in Hq.
  replace (length dir + 1 - 1) with (length dir) in Hq by lia.
  rewrite prefixes_snoc in Hq by lia. now rewrite (ready q).
Qed.

Lemma ready_node_at : node_at fs dir = Some Dir.
Proof.
  destruct (decide (dir = [])) as [E|E]; [now rewrite E|].
  rewrite node_at_nonempty by assumption.
  apply ready, elem_of_prefixes. exists (length dir). split.
  - apply length_nonempty in E. lia.
  - now rewrite take_ge.
Qed.

Lemma ready_make_dirs : make_dirs fs dir = fs.
Proof.
  unfold make_dirs. unfold dirs_ready in ready.
  induction (prefixes dir (length dir)) as [|q l IH]; [reflexivity|].
  simpl. rewrite IH.
  - apply insert_id, ready. left.
  - intros q' Hq'. apply ready. now right.
Qed.

Lemma ready_mkdir_tree : mkdir_tree dir fs = Done fs.
Proof.
  unfold mkdir_tree. now rewrite ready_under_file, ready_node_at, ready_make_dirs.
Qed.

Lemma ready_insert (k : path) (v : node) :
  k ∉ prefixes dir (length dir) -> dirs_ready (<[k := v]> fs) dir.
Proof.
  intros Hk q Hq. rewrite lookup_insert_ne; [now apply ready|]. intros ->. contradiction.
Qed.

Lemma ready_delete (k : path) :
  k ∉ prefixes dir (length dir) -> dirs_ready (delete k fs) dir.
Proof.
  intros Hk q Hq. rewrite lookup_delete_ne; [now apply ready|]. intros ->. contradiction.
Qed.

End Ready.

Lemma make_dirs_ready (fs : gmap path node) (dir : path) : dirs_ready (make_dirs fs dir) dir.
Proof.
  unfold dirs_ready, make_dirs.
  induction (prefixes dir (length dir)) as [|q' l IH]; intros q Hq.
  - inversion Hq.
  - simpl. destruct (decide (q' = q)) as [->|Hne].
    + apply lookup_insert_eq.
    + rewrite lookup_insert_ne by assumption. apply IH.
      apply elem_of_cons in Hq as [->|Hq]; [congruence|assumption].
Qed.

Lemma mkdir_tree_ready (fs fs1 : gmap path node) (dir : path) :
  mkdir_tree dir fs = Done fs1 -> dirs_ready fs1 dir.
Proof.
  unfold mkdir_tree. destruct (under_file fs dir); [discriminate|].
  destruct (is_file (node_at fs dir)); [discriminate|].
  intros [= <-]. apply make_dirs_ready.
Qed.

(** ** saveUserConfig *)

Lemma saveUserConfig_files this config w :
  files (saveUserConfig this config w).2
  = save_tree this (JSON_stringify_UserConfig config) (files w).
Proof.
  unfold saveUserConfig, ensureConfigDir, save_tree, try_catch, mbind, M_bind,
    mkdir, writeFile, rename, apply_change.
  destruct (mkdir_tree _ _); simpl; try reflexivity.
  destruct (writeFile_tree _ _ _); simpl; try reflexivity.
  destruct (rename_tree _ _ _); reflexivity.
Qed.

Lemma saveUserConfig_Return this config w w' :
  saveUserConfig this config w = (Return tt, w') ->
  exists fs1 fs2,
    mkdir_tree (configDir this) (files w) = Done fs1
    /\ writeFile_tree (path_suffix (userConfigPath this) ".tmp")
         (JSON_stringify_UserConfig config) fs1 = Done fs2
    /\ rename_tree (path_suffix (userConfigPath this) ".tmp") (userConfigPath this) fs2
       = Done (files w')
    /\ homedir w' = homedir w.
Proof.
  unfold saveUserConfig, ensureConfigDir, try_catch, mbind, M_bind,
    mkdir, writeFile, rename, apply_change.
  destruct (mkdir_tree _ _) as [fs1| |] eqn:E1; simpl; try discriminate.
  destruct (writeFile_tree _ _ _) as [fs2| |] eqn:E2; simpl; try discriminate.
  destruct (rename_tree _ _ _) as [fs3| |] eqn:E3; simpl; try discriminate.
  intros [= <-]. exists fs1, fs2. simpl. auto.
Qed.

Lemma writeFile_tree_Done p data fs fs' :
  writeFile_tree p data fs = Done fs' -> fs' = <[p := File data]> fs.
Proof.
  unfold writeFile_tree. destruct (under_file fs p); [discriminate|].
  destruct (node_at fs (parent p)) as [[|?]|]; try discriminate.
  destruct (node_at fs p) as [[|?]|]; try discriminate; now intros [= <-].
Qed.

Lemma rename_tree_Done src dst fs fs' :
  rename_tree src dst fs = Done fs' ->
  exists data, node_at fs src = Some (File data) /\ fs' = <[dst := File data]> (delete src fs).
Proof.
  unfold rename_tree. destruct (under_file fs src || under_file fs dst); [discriminate|].
  destruct (node_at fs src) as [[|data]|]; try discriminate.
  destruct (node_at fs (parent dst)) as [[|?]|]; try discriminate.
  destruct (node_at fs dst) as [[|?]|]; try discriminate; intros [= <-]; eauto.
Qed.

Section Layout.

(** The three paths of a manager built by the constructor. *)
Variable home : path.
Let dir : path := home ++ [".claude-webui"%string].
Let canon : path := dir ++ ["config.json"%string].
Let temp : path := dir ++ ["config.json.tmp"%string].

Lemma layout_configDir : configDir (ConfigManager_new home) = dir.
Proof. reflexivity. Qed.

Lemma layout_userConfigPath : userConfigPath (ConfigManager_new home) = canon.
Proof. reflexivity. Qed.

Lemma layout_tempPath : path_suffix (userConfigPath (ConfigManager_new home)) ".tmp" = temp.
Proof. rewrite layout_userConfigPath. unfold canon. now rewrite path_suffix_snoc. Qed.

Lemma temp_ne_canon : temp <> canon.
Proof. unfold temp, canon. intros H%app_inv_head. discriminate. Qed.

Lemma save_tree_layout data fs :
  save_tree (ConfigManager_new home) data fs
  = match mkdir_tree dir fs with
    | Done fs1 =>
        match writeFile_tree temp data fs1 with
        | Done fs2 =>
            match rename_tree temp canon fs2 with
            | Done fs3 => fs3
            | _ => fs2
            end
        | _ => fs1
        end
    | _ => fs
    end.
Proof. unfold save_tree. rewrite layout_tempPath. reflexivity. Qed.

(** Writing the temp file into a tree whose directories are ready. *)
Lemma ready_writeFile_tree data fs :
  dirs_ready fs dir ->
  writeFile_tree temp data fs
  = match fs !! temp with
    | Some Dir => Fail "EISDIR"
    | _ => Done (<[temp := File data]> fs)
    end.
Proof.
  intros R. unfold writeFile_tree, temp.
  rewrite (ready_child_under_file _ _ R), parent_snoc, (ready_node_at _ _ R).
  rewrite node_at_nonempty; [reflexivity|]. now destruct dir.
Qed.

Lemma ready_rename_tree data fs :
  dirs_ready fs dir ->
  fs !! temp = Some (File data) ->
  rename_tree temp canon fs
  = match fs !! canon with
    | Some Dir => Fail "EISDIR"
    | _ => Done (<[canon := File data]> (delete temp fs))
    end.
Proof.
  intros R Ht. unfold rename_tree, temp, canon.
  rewrite !(ready_child_under_file _ _ R), parent_snoc, (ready_node_at _ _ R).
  rewrite !node_at_nonempty by now destruct dir.
  fold temp canon. rewrite Ht. reflexivity.
Qed.

Lemma temp_not_prefix : temp ∉ prefixes dir (length dir).
Proof. apply child_not_prefix. Qed.

Lemma canon_not_prefix : canon ∉ prefixes dir (length dir).
Proof. apply child_not_prefix. Qed.

(** Saving again, from the tree the rename step leaves. *)
Lemma save_tree_after_write data fs1 :
  dirs_ready fs1 dir ->
  let fs2 := <[temp := File data]> fs1 in
  let final := match rename_tree temp canon fs2 with Done fs3 => fs3 | _ => fs2 end in
  save_tree (ConfigManager_new home) data final = final.
Proof.
  intros R1 fs2 final.
  assert (dirs_ready fs2 dir) as R2 by (apply ready_insert; [assumption|apply temp_not_prefix]).
  assert (fs2 !! temp = Some (File data)) as Ht2 by apply lookup_insert_eq.
  assert (<[temp := File data]> fs2 = fs2) as Hw2 by apply insert_insert_eq.
  subst final. rewrite (ready_rename_tree data fs2 R2 Ht2).
  assert (forall fs3, fs3 = <[canon := File data]> (delete temp fs2) ->
            save_tree (ConfigManager_new home) data fs3 = fs3) as Hdone.
  { intros fs3 ->. set (fs3 := <[canon := File data]> (delete temp fs2)).
    assert (dirs_ready fs3 dir) as R3.
    { apply ready_insert; [apply ready_delete; [assumption|apply temp_not_prefix]
                          |apply canon_not_prefix]. }
    assert (fs3 !! temp = None) as Ht3.
    { unfold fs3. rewrite lookup_insert_ne by (apply not_eq_sym, temp_ne_canon).
      apply lookup_delete_eq. }
    assert (fs3 !! canon = Some (File data)) as Hc3 by apply lookup_insert_eq.
    rewrite save_tree_layout, (ready_mkdir_tree _ _ R3), (ready_writeFile_tree _ _ R3), Ht3.
    set (fs4 := <[temp := File data]> fs3).
    assert (dirs_ready fs4 dir) as R4 by (apply ready_insert; [assumption|apply temp_not_prefix]).
    assert (fs4 !! temp = Some (File data)) as Ht4 by apply lookup_insert_eq.
    assert (fs4 !! canon = Some (File data)) as Hc4.
    { unfold fs4. now rewrite lookup_insert_ne by apply temp_ne_canon. }
    rewrite (ready_rename_tree data fs4 R4 Ht4), Hc4.
    unfold fs4. rewrite delete_insert_eq, delete_id by assumption.
    now apply insert_id. }
  destruct (fs2 !! canon) as [[|old]|] eqn:Ec; [|now apply Hdone ..].
  rewrite save_tree_layout, (ready_mkdir_tree _ _ R2), (ready_writeFile_tree _ _ R2), Ht2, Hw2.
  now rewrite (ready_rename_tree data fs2 R2 Ht2), Ec.
Qed.

Lemma save_tree_idempotent data fs :
  save_tree (ConfigManager_new home) data (save_tree (ConfigManager_new home) data fs)
  = save_tree (ConfigManager_new home) data fs.
Proof.
  rewrite (save_tree_layout data fs).
  destruct (mkdir_tree dir fs) as [fs1| |] eqn:E1;
    [|rewrite save_tree_layout, E1; reflexivity ..].
  pose proof (mkdir_tree_ready _ _ _ E1) as R1.
  rewrite (ready_writeFile_tree data fs1 R1).
  destruct (fs1 !! temp) as [[|old]|] eqn:Et;
    [|now apply save_tree_after_write ..].
  rewrite save_tree_layout, (ready_mkdir_tree _ _ R1), (ready_writeFile_tree _ _ R1), Et.
  reflexivity.
Qed.

End Layout.

(** C8: [saveUserConfig] is idempotent on the file: after a second call with
    the same config the canonical file (and the rest of the tree) is what
    it was after the first call, whether the calls succeed or fail. *)
Theorem saveUserConfig_idempotent (home : path) (config : UserConfig) (w : world) :
  let this := ConfigManager_new home in
  let after_first := (saveUserConfig this config w).2 in
  let after_second := (saveUserConfig this config after_first).2 in
  files after_second !! userConfigPath this = files after_first !! userConfigPath this
  /\ files after_second = files after_first.
Proof.
  intros this after_first after_second.
  assert (files after_second = files after_first) as H.
  { unfold after_second, after_first. rewrite !saveUserConfig_files.
    apply save_tree_idempotent. }
  now rewrite H.
Qed.

Example saveUserConfig_twice :
  let once := (saveUserConfig Example.manager Example.custom_config Example.fresh).2 in
  let twice := (saveUserConfig Example.manager Example.custom_config once).2 in
  files twice !! userConfigPath Example.manager
  = Some (File (JSON_stringify_UserConfig Example.custom_config))
  /\ files twice = files once.
Proof. split; vm_compute; reflexivity. Qed.

(** ** JSON: what is printed parses back *)

Module JSONFacts.
Import JSON.

Local Open Scope N_scope.

Lemma hex_digit_hex_char (d : N) : d < 16 -> hex_digit (hex_char d) = Some d.
Proof.
  intros Hd. unfold hex_char, hex_digit.
  destruct (N.ltb_spec d 10).
  - replace ((0x30 <=? 0x30 + d) && (0x30 + d <=? 0x39)) with true.
    + f_equal. lia.
    + symmetry. apply andb_true_intro. split; apply N.leb_le; lia.
  - replace ((0x30 <=? 0x61 + (d - 10)) && (0x61 + (d - 10) <=? 0x39)) with false.
    2:{ symmetry. apply andb_false_intro2. apply N.leb_gt. lia. }
    replace ((0x41 <=? 0x61 + (d - 10)) && (0x61 + (d - 10) <=? 0x46)) with false.
    2:{ symmetry. apply andb_false_intro2. apply N.leb_gt. lia. }
    replace ((0x61 <=? 0x61 + (d - 10)) && (0x61 + (d - 10) <=? 0x66)) with true.
    + f_equal. lia.
    + symmetry. apply andb_true_intro. split; apply N.leb_le; lia.
Qed.

Lemma hex4_digits (c : N) :
  c < 65536 ->
  hex4 (hex_char (c / 4096 mod 16)) (hex_char (c / 256 mod 16))
       (hex_char (c / 16 mod 16)) (hex_char (c mod 16)) = Some c.
Proof.
  intros Hc. unfold hex4.
  rewrite !hex_digit_hex_char by (apply N.mod_lt; discriminate).
  f_equal.
  replace (c / 256) with (c / 16 / 16) by (now rewrite N.Div0.div_div).
  replace (c / 4096) with (c / 16 / 16 / 16) by (now rewrite !N.Div0.div_div).
  pose proof (N.div_mod c 16 ltac:(discriminate)) as E0.
  pose proof (N.div_mod (c / 16) 16 ltac:(discriminate)) as E1.
  pose proof (N.div_mod (c / 16 / 16) 16 ltac:(discriminate)) as E2.
  assert (c / 16 / 16 / 16 < 16) as H3.
  { rewrite !N.Div0.div_div. apply N.Div0.div_lt_upper_bound. simpl. lia. }
  rewrite (N.mod_small _ 16 H3).
  lia.
Qed.

Lemma parse_chars_raw (c : N) (rest : text) :
  0x20 <= c -> c <> 0x22 -> c <> 0x5C ->
  parse_chars (c :: rest) = cons_char c (parse_chars rest).
Proof.
  intros H1 H2 H3. simpl.
  rewrite (proj2 (N.eqb_neq c 0x22) H2), (proj2 (N.eqb_neq c 0x5C) H3).
  now rewrite (proj2 (N.ltb_ge c 0x20) H1).
Qed.

Lemma parse_chars_unicode_escape (c : N) (rest : text) :
  c < 65536 ->
  parse_chars (unicode_escape c ++ rest) = cons_char c (parse_chars rest).
Proof.
  intros Hc. unfold unicode_escape. cbn [app parse_chars].
  change (0x5C =? 0x22) with false. change (0x5C =? 0x5C) with true.
  change (0x75 =? 0x75) with true. cbv iota.
  now rewrite (hex4_digits c Hc).
Qed.

Lemma parse_chars_quote_code_unit (c : N) (rest : text) :
  parse_chars (quote_code_unit c ++ rest) = cons_char c (parse_chars rest).
Proof.
  unfold quote_code_unit.
  repeat match goal with
         | |- context [?x =? ?k] => destruct (N.eqb_spec x k) as [->|?]; [reflexivity|]
         end.
  destruct (N.ltb_spec c 0x20).
  - apply parse_chars_unicode_escape. lia.
  - now apply parse_chars_raw.
Qed.

Lemma surrogate_bounds (c : N) :
  is_high_surrogate c = true \/ is_low_surrogate c = true ->
  0x20 <= c /\ c <> 0x22 /\ c <> 0x5C /\ c < 65536.
Proof.
  unfold is_high_surrogate, is_low_surrogate.
  intros [H|H]; apply andb_prop in H as [H1 H2]; apply N.leb_le in H1, H2; lia.
Qed.

Lemma parse_chars_quote_chars_bounded (n : nat) (s rest : text) :
  (length s <= n)%nat ->
  parse_chars (quote_chars s ++ 0x22 :: rest) = Some (s, rest).
Proof.
  revert s. induction n as [|n IH]; intros s Hn.
  - destruct s; [reflexivity|simpl in Hn; lia].
  - destruct s as [|c s]; [reflexivity|]. simpl in Hn.
    cbn [quote_chars].
    destruct (is_high_surrogate c) eqn:Hh.
    + destruct (surrogate_bounds c (or_introl Hh)) as (B1 & B2 & B3 & B4).
      destruct s as [|d s].
      * rewrite parse_chars_unicode_escape by assumption. reflexivity.
      * destruct (is_low_surrogate d) eqn:Hl.
        -- destruct (surrogate_bounds d (or_intror Hl)) as (D1 & D2 & D3 & D4).
           cbn [app]. rewrite !parse_chars_raw by assumption.
           rewrite IH by (simpl in Hn; lia). reflexivity.
        -- rewrite <- app_assoc, parse_chars_unicode_escape by assumption.
           rewrite IH by lia. reflexivity.
    + destruct (is_low_surrogate c) eqn:Hl.
      * destruct (surrogate_bounds c (or_intror Hl)) as (B1 & B2 & B3 & B4).
        rewrite <- app_assoc, parse_chars_unicode_escape by assumption.
        rewrite IH by lia. reflexivity.
      * rewrite <- app_assoc, parse_chars_quote_code_unit.
        rewrite IH by lia. reflexivity.
Qed.

(** A printed string literal, after its opening quote, reads back as the
    string. *)
Lemma parse_chars_quote_chars (s rest : text) :
  parse_chars (quote_chars s ++ 0x22 :: rest) = Some (s, rest).
Proof. now apply (parse_chars_quote_chars_bounded (length s)). Qed.

End JSONFacts.

Module ObjectFacts.
Import JSON JSONFacts.

Local Open Scope N_scope.

Lemma property_eq (key : string) (v : text) :
  property key v = 0x20 :: 0x20 :: 0x22 :: quote_chars (lit key) ++ 0x22 :: 0x3A :: 0x20 :: v.
Proof. unfold property, quote. cbn [lit app]. now rewrite <- app_assoc. Qed.

Lemma parse_members_eq f acc s :
  parse_members (S f) acc s
  = match skip_ws s with
    | q :: s1 =>
        if q =? 0x22 then
          match parse_chars s1 with
          | Some (key, s2) =>
              match skip_ws s2 with
              | colon :: s3 =>
                  if colon =? 0x3A then
                    match parse_value f s3 with
                    | Parsed v r =>
                        match skip_ws r with
                        | c :: r' =>
                            if c =? 0x2C then parse_members f (set_member key v acc) r'
                            else if c =? 0x7D then Parsed (VObj (set_member key v acc)) r'
                            else Malformed
                        | [] => Malformed
                        end
                    | Malformed => Malformed
                    | OutOfFuel => OutOfFuel
                    end
                  else Malformed
              | [] => Malformed
              end
          | None => Malformed
          end
        else Malformed
    | [] => Malformed
    end.
Proof. reflexivity. Qed.

(** One printed property, up to and including what follows its value. *)
Lemma parse_member f acc key vtext v tail :
  (forall rest, parse_value f (0x20 :: vtext ++ rest) = Parsed v rest) ->
  parse_members (S f) acc (LF ++ property key vtext ++ tail)
  = match skip_ws tail with
    | c :: r' =>
        if c =? 0x2C then parse_members f (set_member (lit key) v acc) r'
        else if c =? 0x7D then Parsed (VObj (set_member (lit key) v acc)) r'
        else Malformed
    | [] => Malformed
    end.
Proof.
  intros Hv. rewrite parse_members_eq, property_eq. unfold LF.
  cbn [app]. rewrite <- app_assoc. cbn [app].
  change (skip_ws (0x0A :: 0x20 :: 0x20 :: 0x22 :: ?x)) with (0x22 :: x).
  change (0x22 =? 0x22) with true. cbv iota.
  rewrite parse_chars_quote_chars.
  change (skip_ws (0x3A :: ?x)) with (0x3A :: x).
  change (0x3A =? 0x3A) with true. cbv iota.
  rewrite Hv. reflexivity.
Qed.

Lemma parse_value_string f (s rest : text) :
  parse_value (S f) (0x20 :: quote s ++ rest) = Parsed (VStr s) rest.
Proof.
  unfold quote. cbn [app]. rewrite <- app_assoc. cbn [app].
  cbn [parse_value].
  change (skip_ws (0x20 :: 0x22 :: ?x)) with (0x22 :: x).
  cbv iota.
  change (0x22 =? 0x7B) with false. change (0x22 =? 0x5B) with false.
  change (0x22 =? 0x22) with true. cbv iota.
  now rewrite parse_chars_quote_chars.
Qed.

Lemma parse_value_boolean f (b : bool) (rest : text) :
  parse_value (S f) (0x20 :: boolean b ++ rest) = Parsed (VBool b) rest.
Proof. destruct b; reflexivity. Qed.


(** A printed object with the properties [props] (key, printed value, value)
    reads back as the object with these members. *)
Lemma parse_members_join (props : list (string * text * value)) :
  Forall (fun p => forall f rest,
            parse_value (S f) (0x20 :: p.1.2 ++ rest) = Parsed p.2 rest) props ->
  props <> [] ->
  forall fuel acc rest,
    (length props < fuel)%nat ->
    parse_members fuel acc
      (LF ++ join (lit "," ++ LF) ((fun p => property p.1.1 p.1.2) <$> props)
          ++ LF ++ 0x7D :: rest)
    = Parsed (VObj (foldl (fun ms p => set_member (lit p.1.1) p.2 ms) acc props)) rest.
Proof.
  induction 1 as [|[[key vtext] v] ps Hp Hps IH]; [congruence|].
  intros _ fuel acc rest Hfuel. simpl in Hfuel, Hp.
  destruct fuel as [|[|f]]; [lia..|].
  destruct ps as [|q ps'].
  - cbn [fmap list_fmap join foldl fst snd].
    rewrite (parse_member _ _ key vtext v) by apply Hp. reflexivity.
  - change (join (lit "," ++ LF) ((fun p => property p.1.1 p.1.2) <$> (key, vtext, v) :: q :: ps'))
      with (property key vtext ++ (0x2C :: LF ++ join (lit "," ++ LF)
              ((fun p => property p.1.1 p.1.2) <$> q :: ps'))).
    rewrite <- (app_assoc (property key vtext)).
    rewrite (parse_member _ _ key vtext v) by apply Hp.
    cbn [app skip_ws]. change (is_json_space 0x2C) with false. cbv iota.
    change (0x2C =? 0x2C) with true. cbv iota.
    rewrite <- app_assoc.
    rewrite IH; [reflexivity|discriminate|simpl in *; lia].
Qed.

Lemma parse_object (props : list (string * text * value)) :
  Forall (fun p => forall f rest,
            parse_value (S f) (0x20 :: p.1.2 ++ rest) = Parsed p.2 rest) props ->
  props <> [] ->
  (length props <= 4)%nat ->
  parse (object ((fun p => property p.1.1 p.1.2) <$> props))
  = Some (VObj (foldl (fun ms p => set_member (lit p.1.1) p.2 ms) [] props)).
Proof.
  intros Hp Hne Hlen. unfold parse.
  destruct props as [|p ps] eqn:E; [congruence|]. rewrite <- E in *.
  assert (object ((fun p => property p.1.1 p.1.2) <$> props)
          = 0x7B :: (LF ++ join (lit "," ++ LF) ((fun p => property p.1.1 p.1.2) <$> props)
                        ++ LF ++ 0x7D :: [])) as ->.
  { rewrite E. reflexivity. }
  set (body := LF ++ _).
  assert (exists x, skip_ws body = 0x22 :: x) as [x Hx].
  { unfold body. rewrite E. destruct p as [[key vtext] v]. destruct ps; cbn [fmap list_fmap join];
      rewrite property_eq; eexists; reflexivity. }
  assert (4 < 2 * length (0x7B%N :: body))%nat as Hfuel.
  { unfold body. rewrite length_cons, !length_app. unfold LF. cbn [length]. lia. }
  destruct (2 * length (0x7B%N :: body))%nat as [|F] eqn:EF; [lia|].
  cbn [parse_value skip_ws]. change (is_json_space 0x7B) with false. cbv iota.
  change (0x7B =? 0x7B) with true. cbv iota. rewrite Hx.
  change (0x22 =? 0x7D) with false. cbv iota.
  unfold body. rewrite parse_members_join by (assumption || lia).
  reflexivity.
Qed.

End ObjectFacts.

(** The file [saveUserConfig] writes parses, at type [UserConfig], to the
    config that was saved. *)
Lemma parse_stringify_UserConfig (config : UserConfig) :
  exists v, JSON.parse (JSON_stringify_UserConfig config) = Some v
            /\ as_UserConfig_or_null v = Some (Some config).
Proof.
  destruct config as [k u m b].
  pose (props :=
          [("useSystemDefaults"%string, JSON.boolean b, JSON.VBool b)]
          ++ from_option (fun s => [("apiKey"%string, JSON.quote s, JSON.VStr s)]) [] k
          ++ from_option (fun s => [("baseUrl"%string, JSON.quote s, JSON.VStr s)]) [] u
          ++ from_option (fun s => [("model"%string, JSON.quote s, JSON.VStr s)]) [] m).
  assert (JSON_stringify_UserConfig
            {| uc_apiKey := k; uc_baseUrl := u; uc_model := m; useSystemDefaults := b |}
          = JSON.object ((fun p => JSON.property p.1.1 p.1.2) <$> props)) as ->.
  { unfold props. destruct k, u, m; reflexivity. }
  eexists. split.
  - apply ObjectFacts.parse_object.
    + unfold props. destruct k, u, m; repeat constructor; intros; cbn [fst snd];
        first [apply ObjectFacts.parse_value_boolean | apply ObjectFacts.parse_value_string].
    + discriminate.
    + unfold props. destruct k, u, m; simpl; lia.
  - unfold props. destruct k, u, m; reflexivity.
Qed.

Lemma saveUserConfig_then_getUserConfig (home : path) (config : UserConfig) (w w1 : world) :
  saveUserConfig (ConfigManager_new home) config w = (Return tt, w1) ->
  getUserConfig (ConfigManager_new home) w1
  = (Return (Some config), append_log w1 [(Info, "Loaded user config from {path}"%string)]).
Proof.
  intros Hs. apply saveUserConfig_Return in Hs as (fs1 & fs2 & E1 & E2 & E3 & _).
  rewrite layout_tempPath, layout_userConfigPath in *. rewrite layout_configDir in E1.
  pose proof (mkdir_tree_ready _ _ _ E1) as R1.
  apply writeFile_tree_Done in E2 as ->.
  apply rename_tree_Done in E3 as (data & Hsrc & E3).
  rewrite node_at_nonempty in Hsrc by (now destruct home).
  rewrite lookup_insert_eq in Hsrc. injection Hsrc as <-.
  set (dir := home ++ [".claude-webui"%string]) in *.
  set (canon := dir ++ ["config.json"%string]) in *.
  set (temp := dir ++ ["config.json.tmp"%string]) in *.
  assert (dirs_ready (files w1) dir) as R.
  { rewrite E3. apply ready_insert; [apply ready_delete; [apply ready_insert|]|];
      try assumption; apply child_not_prefix. }
  assert (readFile canon w1 = (Return (JSON_stringify_UserConfig config), w1)) as Hr.
  { unfold readFile. unfold canon at 1. rewrite (ready_child_under_file _ _ R).
    fold canon. rewrite node_at_nonempty by (now destruct dir).
    rewrite E3, lookup_insert_eq. reflexivity. }
  destruct (parse_stringify_UserConfig config) as (v & Hp & Hv).
  unfold getUserConfig, try_catch, mbind, M_bind.
  rewrite layout_userConfigPath. fold dir canon.
  rewrite Hr, (JSON_parse_returns _ _ _ Hp), Hv. reflexivity.
Qed.

(** C9: after a successful [saveUserConfig(config)], the canonical file
    holds the JSON text of the config, its [apiKey] as it was given, and
    [getUserConfig] returns a config equal to the one saved. *)
Theorem save_load_roundtrip (home : path) (config : UserConfig) (w w1 : world) :
  saveUserConfig (ConfigManager_new home) config w = (Return tt, w1) ->
  files w1 !! userConfigPath (ConfigManager_new home)
  = Some (File (JSON_stringify_UserConfig config))
  /\ exists loaded w2,
       getUserConfig (ConfigManager_new home) w1 = (Return (Some loaded), w2)
       /\ loaded = config
       /\ uc_apiKey loaded = uc_apiKey config
       /\ files w2 = files w1.
Proof.
  intros Hs. split.
  - apply saveUserConfig_Return in Hs as (fs1 & fs2 & _ & E2 & E3 & _).
    rewrite layout_tempPath, layout_userConfigPath in *.
    apply writeFile_tree_Done in E2 as ->.
    apply rename_tree_Done in E3 as (data & Hsrc & ->).
    rewrite node_at_nonempty in Hsrc by (now destruct home).
    rewrite lookup_insert_eq in Hsrc. injection Hsrc as <-.
    apply lookup_insert_eq.
  - eexists _, _.
    split; [apply (saveUserConfig_then_getUserConfig _ _ _ _ Hs)|]. auto.
Qed.

Lemma save_load_roundtrip_witness :
  exists w1 loaded w2,
    saveUserConfig Example.manager Example.custom_config Example.fresh = (Return tt, w1)
    /\ getUserConfig Example.manager w1 = (Return (Some loaded), w2)
    /\ loaded = Example.custom_config
    /\ uc_apiKey loaded = Some (lit " ").
Proof.
  pose (w1 := (saveUserConfig Example.manager Example.custom_config Example.fresh).2).
  assert (saveUserConfig Example.manager Example.custom_config Example.fresh = (Return tt, w1))
    as Hs by (vm_compute; reflexivity).
  destruct (save_load_roundtrip Example.home Example.custom_config Example.fresh w1 Hs)
    as (_ & loaded & w2 & Hl & He & Hk & _).
  exists w1, loaded, w2. rewrite Hk. auto.
Defined.

(** ** JSON.parse never runs out of steps *)

Module FuelFacts.
Import JSON.

Local Open Scope N_scope.

Lemma skip_ws_length (s : text) : (length (skip_ws s) <= length s)%nat.
Proof.
  induction s as [|c s IH]; simpl; [lia|].
  destruct (is_json_space c); simpl; lia.
Qed.

Lemma cons_char_length c r str rest (n : nat) :
  cons_char c r = Some (str, rest) ->
  (forall str' rest', r = Some (str', rest') -> (length rest' < n)%nat) ->
  (length rest < n)%nat.
Proof.
  destruct r as [[str' rest']|]; simpl; [|discriminate].
  intros [= _ <-] H. now apply (H str').
Qed.

Lemma parse_chars_length_bounded (n : nat) (s str rest : text) :
  (length s <= n)%nat ->
  parse_chars s = Some (str, rest) -> (length rest < length s)%nat.
Proof.
  revert s str rest. induction n as [|n IH]; intros s str rest Hn.
  - destruct s; [discriminate|simpl in Hn; lia].
  - destruct s as [|c s]; [discriminate|]. simpl in Hn. cbn [parse_chars].
    destruct (c =? 0x22); [intros [= _ <-]; simpl; lia|].
    destruct (c =? 0x5C).
    + destruct s as [|e s]; [discriminate|].
      destruct (e =? 0x75).
      * destruct s as [|h1 [|h2 [|h3 [|h4 r]]]]; try discriminate.
        destruct (hex4 h1 h2 h3 h4); [|discriminate].
        intros H. eapply cons_char_length in H; [exact H|].
        intros str' rest' Hr. apply IH in Hr; simpl in *; lia.
      * destruct (simple_escape e); [|discriminate].
        intros H. eapply cons_char_length in H; [exact H|].
        intros str' rest' Hr. apply IH in Hr; simpl in *; lia.
    + destruct (c <? 0x20); [discriminate|].
      intros H. eapply cons_char_length in H; [exact H|].
      intros str' rest' Hr. apply IH in Hr; simpl in *; lia.
Qed.

Lemma parse_chars_length (s str rest : text) :
  parse_chars s = Some (str, rest) -> (length rest < length s)%nat.
Proof. now apply (parse_chars_length_bounded (length s)). Qed.

Lemma digits_length (s : text) : (length (digits s).2 <= length s)%nat.
Proof.
  induction s as [|c s IH]; simpl; [lia|].
  destruct (is_digit c); [|simpl; lia].
  destruct (digits s) as [ds r]. simpl in *. lia.
Qed.

Lemma parse_number_length (s : text) m e rest :
  parse_number s = Some (m, e, rest) -> (length rest < length s)%nat.
Proof.
  unfold parse_number.
  set (ns := match s with
             | c :: r => if c =? 0x2D then (true, r) else (false, s)
             | [] => (false, s)
             end).
  assert (length ns.2 <= length s)%nat as Hs1.
  { subst ns. destruct s as [|c r]; [simpl; lia|]. destruct (c =? 0x2D); simpl; lia. }
  destruct ns as [neg s1]. simpl in Hs1.
  destruct s1 as [|c r1]; [discriminate|].
  set (ip := if c =? 0x30 then Some ([c], r1) else if is_digit c then Some (digits (c :: r1)) else None).
  assert (forall ipart s2, ip = Some (ipart, s2) -> length s2 < length (c :: r1))%nat as Hs2.
  { subst ip. intros ipart s2. destruct (c =? 0x30); [intros [= _ <-]; simpl; lia|].
    destruct (is_digit c) eqn:Hd; [|discriminate].
    pose proof (digits_length r1) as Hl. cbn [digits]. rewrite Hd.
    destruct (digits r1) as [ds r]. intros [= _ <-]. simpl in *. lia. }
  destruct ip as [[ipart s2]|]; [|discriminate]. specialize (Hs2 _ _ eq_refl).
  set (fp := match s2 with
             | c0 :: r => if c0 =? 0x2E then match digits r with
                                            | ([], _) => None
                                            | (fs, r') => Some (fs, r')
                                            end
                         else Some ([], s2)
             | [] => Some ([], s2)
             end).
  assert (forall fpart s3, fp = Some (fpart, s3) -> length s3 <= length s2)%nat as Hs3.
  { subst fp. intros fpart s3. destruct s2 as [|c0 r]; [intros [= _ <-]; lia|].
    destruct (c0 =? 0x2E); [|intros [= _ <-]; lia].
    pose proof (digits_length r) as Hl. destruct (digits r) as [[|d ds] r']; [discriminate|].
    intros [= _ <-]. simpl in *. lia. }
  destruct fp as [[fpart s3]|]; [|discriminate]. specialize (Hs3 _ _ eq_refl).
  set (ep := match s3 with
             | c0 :: r =>
                 if (c0 =? 0x65) || (c0 =? 0x45) then
                   let '(eneg, r1) :=
                     match r with
                     | d :: r' => if d =? 0x2D then (true, r')
                                  else if d =? 0x2B then (false, r') else (false, r)
                     | [] => (false, r)
                     end in
                   match digits r1 with
                   | ([], _) => None
                   | (es, r2) =>
                       Some ((if eneg then - digits_value es else digits_value es)%Z, r2)
                   end
                 else Some (0%Z, s3)
             | [] => Some (0%Z, s3)
             end).
  assert (forall ex s4, ep = Some (ex, s4) -> length s4 <= length s3)%nat as Hs4.
  { subst ep. intros ex s4. destruct s3 as [|c0 r]; [intros [= _ <-]; lia|].
    destruct ((c0 =? 0x65) || (c0 =? 0x45)); [|intros [= _ <-]; lia].
    set (sg := match r with
               | d :: r' => if d =? 0x2D then (true, r')
                            else if d =? 0x2B then (false, r') else (false, r)
               | [] => (false, r)
               end).
    assert (length sg.2 <= length r)%nat as Hsg.
    { subst sg. destruct r as [|d r']; [simpl; lia|].
      destruct (d =? 0x2D); [simpl; lia|]. destruct (d =? 0x2B); simpl; lia. }
    destruct sg as [eneg re]. simpl in Hsg.
    pose proof (digits_length re) as Hl. destruct (digits re) as [[|d ds] r2]; [discriminate|].
    intros [= _ <-]. simpl in *. lia. }
  destruct ep as [[ex s4]|]; [|discriminate]. specialize (Hs4 _ _ eq_refl).
  intros [= _ _ <-]. simpl in *. lia.
Qed.

Lemma expect_length (kw s rest : text) : expect kw s = Some rest -> (length rest <= length s)%nat.
Proof.
  revert s. induction kw as [|k kw IH]; intros s; simpl.
  - intros [= <-]. lia.
  - destruct s as [|c s]; [discriminate|]. destruct (c =? k); [|discriminate].
    intros H%IH. simpl. lia.
Qed.

Lemma keyword_length kw v s v' rest :
  keyword kw v s = Parsed v' rest -> (length rest <= length s)%nat.
Proof.
  unfold keyword. destruct (expect kw s) eqn:E; [|discriminate].
  intros [= _ <-]. now apply expect_length in E.
Qed.


Lemma skip_ws_cons_length (s : text) c r :
  skip_ws s = c :: r -> (length r < length s)%nat.
Proof. intros H. pose proof (skip_ws_length s) as L. rewrite H in L. simpl in L. lia. Qed.

(** A successful parse consumes at least one character. *)
Lemma parse_consumes (fuel : nat) :
  (forall s v r, parse_value fuel s = Parsed v r -> (length r < length s)%nat)
  /\ (forall acc s v r, parse_elements fuel acc s = Parsed v r -> (length r < length s)%nat)
  /\ (forall acc s v r, parse_members fuel acc s = Parsed v r -> (length r < length s)%nat).
Proof.
  induction fuel as [|f (IHv & IHe & IHm)]; [repeat split; intros; discriminate|].
  split; [|split].
  - intros s v r. cbn [parse_value].
    destruct (skip_ws s) as [|c s'] eqn:Es; [discriminate|].
    apply skip_ws_cons_length in Es.
    destruct (c =? 0x7B).
    { destruct (skip_ws s') as [|c' r0] eqn:Es'; [discriminate|].
      apply skip_ws_cons_length in Es'.
      destruct (c' =? 0x7D); [intros [= _ <-]; lia|]. intros H%IHm. lia. }
    destruct (c =? 0x5B).
    { destruct (skip_ws s') as [|c' r0] eqn:Es'; [discriminate|].
      apply skip_ws_cons_length in Es'.
      destruct (c' =? 0x5D); [intros [= _ <-]; lia|]. intros H%IHe. lia. }
    destruct (c =? 0x22).
    { destruct (parse_chars s') as [[str r0]|] eqn:Ec; [|discriminate].
      apply parse_chars_length in Ec. intros [= _ <-]. lia. }
    destruct (c =? 0x74); [intros H%keyword_length; lia|].
    destruct (c =? 0x66); [intros H%keyword_length; lia|].
    destruct (c =? 0x6E); [intros H%keyword_length; lia|].
    destruct (parse_number (c :: s')) as [[[m e] r0]|] eqn:En; [|discriminate].
    apply parse_number_length in En. intros [= _ <-]. simpl in En. lia.
  - intros acc s v r. cbn [parse_elements].
    destruct (parse_value f s) as [v0 r0| |] eqn:Ev; try discriminate.
    apply IHv in Ev.
    destruct (skip_ws r0) as [|c r'] eqn:Es; [discriminate|].
    apply skip_ws_cons_length in Es.
    destruct (c =? 0x2C); [intros H%IHe; lia|].
    destruct (c =? 0x5D); [intros [= _ <-]; lia|discriminate].
  - intros acc s v r. cbn [parse_members].
    destruct (skip_ws s) as [|q s1] eqn:Es; [discriminate|].
    apply skip_ws_cons_length in Es.
    destruct (q =? 0x22); [|discriminate].
    destruct (parse_chars s1) as [[key s2]|] eqn:Ec; [|discriminate].
    apply parse_chars_length in Ec.
    destruct (skip_ws s2) as [|colon s3] eqn:Es2; [discriminate|].
    apply skip_ws_cons_length in Es2.
    destruct (colon =? 0x3A); [|discriminate].
    destruct (parse_value f s3) as [v0 r0| |] eqn:Ev; try discriminate.
    apply IHv in Ev.
    destruct (skip_ws r0) as [|c r'] eqn:Es3; [discriminate|].
    apply skip_ws_cons_length in Es3.
    destruct (c =? 0x2C); [intros H%IHm; lia|].
    destruct (c =? 0x7D); [intros [= _ <-]; lia|discriminate].
Qed.

Lemma keyword_fuel kw v s : keyword kw v s <> OutOfFuel.
Proof. unfold keyword. destruct (expect kw s); discriminate. Qed.

(** With more steps than twice the length of the text, the parser does not
    run out of steps. *)
Lemma parse_fuel (fuel : nat) :
  (forall s, (2 * length s < fuel)%nat -> parse_value fuel s <> OutOfFuel)
  /\ (forall acc s, (2 * length s + 1 < fuel)%nat -> parse_elements fuel acc s <> OutOfFuel)
  /\ (forall acc s, (2 * length s < fuel)%nat -> parse_members fuel acc s <> OutOfFuel).
Proof.
  induction fuel as [|f (IHv & IHe & IHm)]; [repeat split; intros; lia|].
  destruct (parse_consumes f) as (Cv & Ce & Cm).
  split; [|split].
  - intros s Hf. cbn [parse_value].
    destruct (skip_ws s) as [|c s'] eqn:Es; [discriminate|].
    apply skip_ws_cons_length in Es.
    destruct (c =? 0x7B).
    { destruct (skip_ws s') as [|c' r0] eqn:Es'; [discriminate|].
      destruct (c' =? 0x7D); [discriminate|]. apply IHm. lia. }
    destruct (c =? 0x5B).
    { destruct (skip_ws s') as [|c' r0] eqn:Es'; [discriminate|].
      destruct (c' =? 0x5D); [discriminate|]. apply IHe. lia. }
    destruct (c =? 0x22); [destruct (parse_chars s') as [[? ?]|]; discriminate|].
    destruct (c =? 0x74); [apply keyword_fuel|].
    destruct (c =? 0x66); [apply keyword_fuel|].
    destruct (c =? 0x6E); [apply keyword_fuel|].
    destruct (parse_number (c :: s')) as [[[? ?] ?]|]; discriminate.
  - intros acc s Hf. cbn [parse_elements].
    destruct (parse_value f s) as [v0 r0| |] eqn:Ev; [|discriminate|].
    + apply Cv in Ev.
      destruct (skip_ws r0) as [|c r'] eqn:Es; [discriminate|].
      apply skip_ws_cons_length in Es.
      destruct (c =? 0x2C); [apply IHe; lia|].
      destruct (c =? 0x5D); discriminate.
    + exfalso. revert Ev. apply IHv. lia.
  - intros acc s Hf. cbn [parse_members].
    destruct (skip_ws s) as [|q s1] eqn:Es; [discriminate|].
    apply skip_ws_cons_length in Es.
    destruct (q =? 0x22); [|discriminate].
    destruct (parse_chars s1) as [[key s2]|] eqn:Ec; [|discriminate].
    apply parse_chars_length in Ec.
    destruct (skip_ws s2) as [|colon s3] eqn:Es2; [discriminate|].
    apply skip_ws_cons_length in Es2.
    destruct (colon =? 0x3A); [|discriminate].
    destruct (parse_value f s3) as [v0 r0| |] eqn:Ev; [|discriminate|].
    + apply Cv in Ev.
      destruct (skip_ws r0) as [|c r'] eqn:Es3; [discriminate|].
      apply skip_ws_cons_length in Es3.
      destruct (c =? 0x2C); [apply IHm; lia|].
      destruct (c =? 0x7D); discriminate.
    + exfalso. revert Ev. apply IHv. lia.
Qed.

(** [JSON.parse] answers [None] only for a text that is not JSON: the run
    of [parse_value] it rests on never ends for want of steps. *)
Lemma parse_value_fuel (s : text) : parse_value (S (2 * length s)) s <> OutOfFuel.
Proof. apply parse_fuel. lia. Qed.

End FuelFacts.

(** ** What saveUserConfig writes is well-formed UTF-16 *)

Module EncodingFacts.
Import JSON.

Local Open Scope N_scope.

Lemma well_formed_plain_cons (c : N) (s : text) :
  plain c = true -> well_formed (c :: s) = well_formed s.
Proof.
  unfold plain. intros [Hh Hl]%andb_prop. apply negb_true_iff in Hh, Hl.
  cbn [well_formed]. now rewrite Hh, Hl.
Qed.

Lemma well_formed_plain_app (a s : text) :
  forallb plain a = true -> well_formed (a ++ s) = well_formed s.
Proof.
  induction a as [|c a IH]; [reflexivity|]. cbn [forallb app].
  intros [Hc Ha]%andb_prop. rewrite well_formed_plain_cons by assumption. now apply IH.
Qed.

Lemma small_plain (c : N) : c < 0xD800 -> plain c = true.
Proof.
  intros Hc. unfold plain, is_high_surrogate, is_low_surrogate.
  rewrite (proj2 (N.leb_gt 0xD800 c)) by lia.
  rewrite (proj2 (N.leb_gt 0xDC00 c)) by lia. reflexivity.
Qed.

Lemma hex_char_plain (d : N) : d < 16 -> plain (hex_char d) = true.
Proof.
  intros Hd. apply small_plain. unfold hex_char. destruct (d <? 10); lia.
Qed.

Lemma unicode_escape_plain (c : N) : forallb plain (unicode_escape c) = true.
Proof.
  unfold unicode_escape. cbn [forallb].
  rewrite !hex_char_plain by (apply N.mod_lt; discriminate). reflexivity.
Qed.

Lemma quote_code_unit_plain (c : N) : plain c = true -> forallb plain (quote_code_unit c) = true.
Proof.
  intros Hc. unfold quote_code_unit.
  repeat match goal with
         | |- context [?x =? ?k] => destruct (x =? k); [reflexivity|]
         end.
  destruct (c <? 0x20); [apply unicode_escape_plain|].
  cbn [forallb]. now rewrite Hc.
Qed.

Lemma well_formed_quote_chars_bounded (n : nat) (s rest : text) :
  (length s <= n)%nat ->
  well_formed (quote_chars s ++ rest) = well_formed rest.
Proof.
  revert s. induction n as [|n IH]; intros s Hn.
  - destruct s; [reflexivity|simpl in Hn; lia].
  - destruct s as [|c s]; [reflexivity|]. simpl in Hn. cbn [quote_chars].
    destruct (is_high_surrogate c) eqn:Hh.
    + destruct s as [|d s].
      * now rewrite well_formed_plain_app by apply unicode_escape_plain.
      * destruct (is_low_surrogate d) eqn:Hl.
        -- cbn [app well_formed]. rewrite Hh, Hl. cbn [andb]. apply IH. simpl in Hn. lia.
        -- rewrite <- app_assoc, well_formed_plain_app by apply unicode_escape_plain.
           apply IH. lia.
    + destruct (is_low_surrogate c) eqn:Hl.
      * rewrite <- app_assoc, well_formed_plain_app by apply unicode_escape_plain.
        apply IH. lia.
      * rewrite <- app_assoc, well_formed_plain_app.
        -- apply IH. lia.
        -- apply quote_code_unit_plain. unfold plain. now rewrite Hh, Hl.
Qed.

Lemma well_formed_quote (s rest : text) : well_formed (quote s ++ rest) = well_formed rest.
Proof.
  unfold quote. rewrite <- !app_assoc. cbn [app].
  rewrite well_formed_plain_cons by reflexivity.
  rewrite (well_formed_quote_chars_bounded (length s)) by lia.
  now rewrite well_formed_plain_cons by reflexivity.
Qed.

(** The text [JSON.stringify] gives for a config has no lone surrogate,
    whatever the strings of the config. *)
Lemma well_formed_JSON_stringify_UserConfig (config : UserConfig) :
  well_formed (JSON_stringify_UserConfig config) = true.
Proof.
  destruct config as [k u m b]. unfold JSON_stringify_UserConfig, object, property.
  cbn [uc_apiKey uc_baseUrl uc_model useSystemDefaults].
  assert (forall rest, well_formed (boolean b ++ rest) = well_formed rest) as Hb.
  { intros rest. destruct b; reflexivity. }
  destruct k, u, m; cbn [from_option app join];
    repeat first
      [ rewrite <- app_assoc
      | rewrite well_formed_quote
      | rewrite Hb
      | rewrite (well_formed_plain_app (lit _)) by reflexivity
      | rewrite (well_formed_plain_app LF) by reflexivity ];
    reflexivity.
Qed.

End EncodingFacts.

(** * Further properties *)

(** ** maskApiKey, trim and the credential checks *)

(** X1: masking is idempotent: the mask of a masked key is the masked key. *)
Theorem maskApiKey_idempotent (secret : option text) :
  maskApiKey (maskApiKey secret) = maskApiKey secret.
Proof.
  destruct secret as [k|]; [|reflexivity].
  destruct (decide (k = [])) as [->|Hne]; [reflexivity|].
  destruct (le_lt_dec (length k) 10) as [Hs|Hl].
  - rewrite (maskApiKey_short k) by assumption. reflexivity.
  - rewrite (maskApiKey_long k) by assumption.
    set (m := take 7 k ++ lit "..." ++ drop (length k - 3) k).
    assert (length m = 13) as Hm.
    { unfold m. rewrite !length_app, length_take, length_drop. cbn [length lit]. lia. }
    rewrite (maskApiKey_long m) by lia. rewrite Hm. do 2 f_equal.
    + unfold m. rewrite take_app_le by (rewrite length_take; lia). apply take_take.
    + f_equal. unfold m. rewrite drop_app_ge by (rewrite length_take; lia).
      rewrite length_take. replace (13 - 3 - 7 `min` length k) with 3 by lia.
      reflexivity.
Qed.

(** X2: the length of a mask.  The masked form has 3 code units when the
    secret has at most 10, and 13 when it has more. *)
Theorem maskApiKey_length (k m : text) :
  maskApiKey (Some k) = Some m ->
  (length k <= 10 /\ length m = 3) \/ (10 < length k /\ length m = 13).
Proof.
  intros H. destruct (decide (k = [])) as [->|Hne]; [discriminate|].
  destruct (le_lt_dec (length k) 10) as [Hs|Hl].
  - rewrite (maskApiKey_short k) in H by assumption. injection H as <-. left. auto.
  - rewrite (maskApiKey_long k) in H by assumption. injection H as <-. right.
    split; [assumption|].
    rewrite ?length_app, ?length_take. cbn [lit app length].
    rewrite ?length_app, ?length_drop. cbn [length]. lia.
Qed.

Lemma maskApiKey_length_witness :
  (length (lit "sk-ant-1234567890") <= 10 /\ length (lit "sk-ant-...890") = 3)
  \/ (10 < length (lit "sk-ant-1234567890") /\ length (lit "sk-ant-...890") = 13).
Proof.
  apply (maskApiKey_length (lit "sk-ant-1234567890") (lit "sk-ant-...890")).
  vm_compute. reflexivity.
Defined.

Lemma trimStart_nil (s : text) : trimStart s = [] <-> forallb is_white_space s = true.
Proof.
  induction s as [|c s IH]; [easy|]. simpl.
  destruct (is_white_space c); simpl; [exact IH|]. split; discriminate.
Qed.

Lemma trimStart_head (s : text) c r : trimStart s = c :: r -> is_white_space c = false.
Proof.
  induction s as [|d s IH]; [discriminate|]. simpl.
  destruct (is_white_space d) eqn:E; [exact IH|]. intros [= <- _]. exact E.
Qed.

(** A string is blank exactly when every code unit of it is white space. *)
Lemma blank_iff (s : text) : blank s <-> forallb is_white_space s = true.
Proof.
  unfold blank, trim, trimEnd. split.
  - intros H. apply (f_equal (@rev N)) in H. rewrite rev_involutive in H. simpl in H.
    apply trimStart_nil in H. rewrite forallb_forall in H.
    destruct (trimStart s) as [|c r] eqn:E; [now apply trimStart_nil|].
    apply trimStart_head in E. rewrite (H c) in E; [discriminate|].
    apply in_rev. rewrite rev_involutive. now left.
  - intros H. apply trimStart_nil in H. rewrite H. reflexivity.
Qed.

Lemma not_blank_nonempty (s : text) : ~ blank s -> s <> [].
Proof. intros H ->. now apply H. Qed.

(** A masked key is never blank. *)
Lemma maskApiKey_not_blank (k m : text) : maskApiKey (Some k) = Some m -> ~ blank m.
Proof.
  intros H. rewrite blank_iff.
  destruct (decide (k = [])) as [->|Hne]; [discriminate|].
  destruct (le_lt_dec (length k) 10) as [Hs|Hl].
  - rewrite (maskApiKey_short k) in H by assumption. injection H as <-. discriminate.
  - rewrite (maskApiKey_long k) in H by assumption. injection H as <-.
    rewrite !forallb_app. cbn [lit forallb]. rewrite andb_comm. discriminate.
Qed.

Lemma testConfig_true (config : SystemConfig) :
  testConfig config = true <-> exists k, sc_apiKey config = Some k /\ ~ blank k.
Proof.
  unfold testConfig, blank. destruct (sc_apiKey config) as [[|c s]|]; simpl.
  - split; [discriminate|]. intros (k & [= <-] & Hk). now destruct Hk.
  - case_bool_decide as Hb; simpl; split; try discriminate.
    + intros (k & [= <-] & Hk). contradiction.
    + intros _. eauto.
    + reflexivity.
  - split; [discriminate|]. intros (k & Hk & _). discriminate.
Qed.

(** ** What only reads *)

Lemma append_log_nil (w : world) : append_log w [] = w.
Proof. destruct w. unfold append_log. simpl. now rewrite app_nil_r. Qed.

Lemma append_log_app (w : world) (a b : list (level * string)) :
  append_log (append_log w a) b = append_log w (a ++ b).
Proof. unfold append_log. simpl. now rewrite app_assoc. Qed.

Lemma only_logs_refl (w : world) : only_logs w w.
Proof. exists []. symmetry. apply append_log_nil. Qed.

Lemma only_logs_trans (w1 w2 w3 : world) :
  only_logs w1 w2 -> only_logs w2 w3 -> only_logs w1 w3.
Proof. intros [a ->] [b ->]. exists (a ++ b). apply append_log_app. Qed.

Lemma only_logs_files (w w' : world) :
  only_logs w w' -> files w' = files w /\ homedir w' = homedir w.
Proof. intros [a ->]. split; reflexivity. Qed.

Lemma reads_only_ret {A} (a : A) : reads_only (mret a).
Proof. intros w. apply only_logs_refl. Qed.

Lemma reads_only_throw {A} (e : error) : reads_only (@throw A e).
Proof. intros w. apply only_logs_refl. Qed.

Lemma reads_only_cast {A} (o : option A) : reads_only (cast o).
Proof. intros w. destruct o; apply only_logs_refl. Qed.

Lemma reads_only_logger l message : reads_only (logger l message).
Proof. intros w. now exists [(l, message)]. Qed.

Lemma reads_only_readFile p : reads_only (readFile p).
Proof.
  intros w. unfold readFile. destruct (under_file _ _); [apply only_logs_refl|].
  destruct (node_at _ _) as [[|?]|]; apply only_logs_refl.
Qed.

Lemma reads_only_JSON_parse data : reads_only (JSON_parse data).
Proof. intros w. unfold JSON_parse. destruct (JSON.parse data); apply only_logs_refl. Qed.

Lemma reads_only_get v k : reads_only (get v k).
Proof. intros w. unfold get. destruct (JSON.get _ _); apply only_logs_refl. Qed.

Lemma reads_only_getConfigManager : reads_only getConfigManager.
Proof. intros w. apply only_logs_refl. Qed.

Lemma reads_only_bind {A B} (m : M A) (f : A -> M B) :
  reads_only m -> (forall a, reads_only (f a)) -> reads_only (m ≫= f).
Proof.
  intros Hm Hf w. unfold mbind, M_bind. specialize (Hm w).
  destruct (m w) as [[a|e|] w']; simpl in *; [|assumption..].
  eapply only_logs_trans; [exact Hm|apply Hf].
Qed.

Lemma reads_only_try_catch {A} (m : M A) (h : error -> M A) :
  reads_only m -> (forall e, reads_only (h e)) -> reads_only (try_catch m h).
Proof.
  intros Hm Hh w. unfold try_catch. specialize (Hm w).
  destruct (m w) as [[a|e|] w']; simpl in *; [assumption| |assumption].
  eapply only_logs_trans; [exact Hm|apply Hh].
Qed.

Lemma reads_only_if {A} (b : bool) (m1 m2 : M A) :
  reads_only m1 -> reads_only m2 -> reads_only (if b then m1 else m2).
Proof. now destruct b. Qed.

Ltac solve_reads_only :=
  repeat first
    [ apply reads_only_try_catch
    | apply reads_only_bind
    | apply reads_only_if
    | apply reads_only_ret
    | apply reads_only_throw
    | apply reads_only_cast
    | apply reads_only_logger
    | apply reads_only_readFile
    | apply reads_only_JSON_parse
    | apply reads_only_get
    | apply reads_only_getConfigManager
    | intro ].

Lemma reads_only_getUserConfig this : reads_only (getUserConfig this).
Proof. unfold getUserConfig. solve_reads_only. Qed.

Lemma reads_only_getSystemConfig this : reads_only (getSystemConfig this).
Proof. unfold getSystemConfig. solve_reads_only. Qed.

Lemma reads_only_getEffectiveConfig this : reads_only (getEffectiveConfig this).
Proof.
  unfold getEffectiveConfig.
  apply reads_only_bind; [apply reads_only_getUserConfig|]. intros user.
  apply reads_only_bind; [apply reads_only_getSystemConfig|]. intros sys.
  destruct (wants_system_defaults user); [apply reads_only_ret|].
  destruct user as [c|]; [destruct (negb _)|]; apply reads_only_ret.
Qed.

Lemma getEffectiveConfig_no_throw this w : no_throw (getEffectiveConfig this w).
Proof.
  unfold no_throw, getEffectiveConfig, mbind, M_bind.
  pose proof (getUserConfig_no_throw this w) as Hu. unfold no_throw in Hu.
  destruct (getUserConfig this w) as [[user|e|] w1]; simpl in *; try easy.
  pose proof (getSystemConfig_no_throw this w1) as Hs. unfold no_throw in Hs.
  destruct (getSystemConfig this w1) as [[sys|e|] w2]; simpl in *; try easy.
  destruct (wants_system_defaults user); [easy|].
  destruct user as [c|]; [destruct (negb _)|]; easy.
Qed.

(** X3: resolution never writes and never throws: [getEffectiveConfig] (and
    with it both loads) leaves the files and the home directory as they
    were, adding to the log only, and its outcome is not an exception. *)
Theorem getEffectiveConfig_reads_only (this : ConfigManager) (w : world) :
  let after := (getEffectiveConfig this w).2 in
  files after = files w
  /\ homedir after = homedir w
  /\ (exists entries, after = append_log w entries)
  /\ no_throw (getEffectiveConfig this w).
Proof.
  intros after. pose proof (reads_only_getEffectiveConfig this w) as H.
  destruct (only_logs_files _ _ H) as [Hf Hh].
  repeat split; try assumption. apply getEffectiveConfig_no_throw.
Qed.

Lemma reads_only_handleGetConfig c : reads_only (handleGetConfig c).
Proof.
  unfold handleGetConfig. apply reads_only_try_catch; [|solve_reads_only].
  apply reads_only_bind; [apply reads_only_getConfigManager|]. intros cm.
  apply reads_only_bind; [apply reads_only_getUserConfig|]. intros user.
  apply reads_only_bind; [apply reads_only_getSystemConfig|]. intros sys.
  destruct user; apply reads_only_ret.
Qed.

Lemma reads_only_handleGetSystemConfig c : reads_only (handleGetSystemConfig c).
Proof.
  unfold handleGetSystemConfig. apply reads_only_try_catch; [|solve_reads_only].
  apply reads_only_bind; [apply reads_only_getConfigManager|]. intros cm.
  apply reads_only_bind; [apply reads_only_getSystemConfig|]. intros sys.
  apply reads_only_ret.
Qed.

Lemma reads_only_handleTestConfig c : reads_only (handleTestConfig c).
Proof. unfold handleTestConfig. solve_reads_only. Qed.

(** X4: the two fetch handlers and the test handler never write: whatever
    the request and the world, the files after the call are the files
    before it. *)
Theorem handlers_read_only (c : Context) (w : world) :
  files (handleGetConfig c w).2 = files w
  /\ files (handleGetSystemConfig c w).2 = files w
  /\ files (handleTestConfig c w).2 = files w.
Proof.
  repeat split; eapply only_logs_files;
    [apply reads_only_handleGetConfig
    |apply reads_only_handleGetSystemConfig
    |apply reads_only_handleTestConfig].
Qed.

(** [handleSaveConfig], step by step. *)
Lemma handleSaveConfig_run (c : Context) (w : world) :
  handleSaveConfig c w
  = match JSON.parse (req_body c) with
    | None =>
        (Return (c_json (error_body "Failed to save configuration") 500%N),
         append_log w [(Error, "Failed to save config: {error}"%string)])
    | Some json =>
        match as_SaveConfigRequest json with
        | None => (Unmodelled, w)
        | Some request =>
            if negb (req_useSystemDefaults request)
               && (negb (truthy (req_apiKey request))
                   || bool_decide (trim (default [] (req_apiKey request)) = []))
            then (Return (c_json (error_body "API key is required") 400%N), w)
            else
              match saveUserConfig (ConfigManager_new (homedir w))
                      (config_of_request request) w with
              | (Return _, w1) =>
                  (Return (c_json (UserConfigResponse (req_useSystemDefaults request)
                                     (maskApiKey (req_apiKey request))
                                     (req_baseUrl request) (req_model request)) 200%N), w1)
              | (Throw _, w1) =>
                  (Return (c_json (error_body "Failed to save configuration") 500%N),
                   append_log w1 [(Error, "Failed to save config: {error}"%string)])
              | (Unmodelled, w1) => (Unmodelled, w1)
              end
        end
    end.
Proof.
  unfold handleSaveConfig, try_catch, mbind, M_bind, getConfigManager, JSON_parse,
    config_of_request.
  destruct (JSON.parse (req_body c)) as [json|]; [|reflexivity]. cbn [mret M_ret].
  destruct (as_SaveConfigRequest json) as [request|]; [|reflexivity]. cbn [cast mret M_ret].
  destruct (negb (req_useSystemDefaults request)); cbn [andb].
  - destruct (negb (truthy (req_apiKey request)) || _); [reflexivity|].
    destruct (saveUserConfig _ _ w) as [[[]|e|] w1]; reflexivity.
  - destruct (saveUserConfig _ _ w) as [[[]|e|] w1]; reflexivity.
Qed.


(** ** getSystemConfig: which key wins *)

Lemma as_optional_string_or_else (a b : option text) :
  as_optional_string (JSON.or_else (of_optional_string a) (of_optional_string b))
  = Some (match a with Some (_ :: _) => a | _ => b end).
Proof. destruct a as [[|c s]|], b as [[|c' s']|]; reflexivity. Qed.

Lemma as_optional_string_of (a : option text) :
  as_optional_string (of_optional_string a) = Some a.
Proof. destruct a; reflexivity. Qed.

(** X6: the precedence of the environment keys.  When the settings file
    parses and its [env] is an object whose recognized keys are strings or
    missing, the system [apiKey] is [ANTHROPIC_AUTH_TOKEN] unless that is
    missing or the empty string, and then [ANTHROPIC_API_KEY] (whatever it
    is, also missing or empty); the [model] is [ANTHROPIC_MODEL] unless
    missing or empty, and then [ANTHROPIC_DEFAULT_SONNET_MODEL]; the
    [baseUrl] is [ANTHROPIC_BASE_URL] as it is. *)
Theorem getSystemConfig_precedence (this : ConfigManager) (w : world) (data : text)
    (settings : JSON.value) (env : list (text * JSON.value))
    (token key url model1 model2 : option text) :
  under_file (files w) (systemConfigPath this) = false ->
  node_at (files w) (systemConfigPath this) = Some (File data) ->
  JSON.parse data = Some settings ->
  JSON.get settings (lit "env") = Some (JSON.VObj env) ->
  member env "ANTHROPIC_AUTH_TOKEN" = of_optional_string token ->
  member env "ANTHROPIC_API_KEY" = of_optional_string key ->
  member env "ANTHROPIC_BASE_URL" = of_optional_string url ->
  member env "ANTHROPIC_MODEL" = of_optional_string model1 ->
  member env "ANTHROPIC_DEFAULT_SONNET_MODEL" = of_optional_string model2 ->
  getSystemConfig this w
  = (Return {| sc_apiKey := match token with Some (_ :: _) => token | _ => key end;
               sc_baseUrl := url;
               sc_model := match model1 with Some (_ :: _) => model1 | _ => model2 end |},
     append_log w [(Info, "Loaded system config from {path}"%string)]).
Proof.
  intros Hu Hn Hp Henv Ht Hk Hb Hm1 Hm2.
  unfold getSystemConfig, try_catch, mbind, M_bind, readFile.
  rewrite Hu, Hn, (JSON_parse_returns _ _ _ Hp), (get_returns _ _ _ _ Henv).
  cbv zeta. change (JSON.or_else (JSON.VObj env) (JSON.VObj [])) with (JSON.VObj env).
  unfold get, JSON.get. fold (member env "ANTHROPIC_AUTH_TOKEN").
  fold (member env "ANTHROPIC_API_KEY"). fold (member env "ANTHROPIC_BASE_URL").
  fold (member env "ANTHROPIC_MODEL"). fold (member env "ANTHROPIC_DEFAULT_SONNET_MODEL").
  rewrite Ht, Hk, Hb, Hm1, Hm2. cbn [mret M_ret].
  rewrite !as_optional_string_or_else, as_optional_string_of. reflexivity.
Qed.

Lemma getSystemConfig_precedence_witness :
  getSystemConfig Example.manager MoreExamples.both_keys
  = (Return {| sc_apiKey := Some (lit "auth-token"); sc_baseUrl := None;
               sc_model := Some (lit "sonnet") |},
     append_log MoreExamples.both_keys [(Info, "Loaded system config from {path}"%string)]).
Proof.
  refine (getSystemConfig_precedence Example.manager MoreExamples.both_keys _ _
            [(lit "ANTHROPIC_API_KEY", JSON.VStr (lit "api-key"));
             (lit "ANTHROPIC_AUTH_TOKEN", JSON.VStr (lit "auth-token"));
             (lit "ANTHROPIC_DEFAULT_SONNET_MODEL", JSON.VStr (lit "sonnet"));
             (lit "ANTHROPIC_MODEL", JSON.VStr (lit ""))]
            (Some (lit "auth-token")) (Some (lit "api-key")) None
            (Some (lit "")) (Some (lit "sonnet")) _ _ _ _ _ _ _ _ _);
    vm_compute; reflexivity.
Defined.

(** X7: a user config file that is not JSON does not block resolution:
    [getEffectiveConfig] answers from the system config and the defaults,
    as if there were no user config. *)
Theorem getEffectiveConfig_corrupt_user_config (this : ConfigManager) (w w2 : world)
    (data : text) (sys : SystemConfig) :
  node_at (files w) (userConfigPath this) = Some (File data) ->
  JSON.parse data = None ->
  getSystemConfig this (append_log w [(Warn, "Failed to read user config: {error}"%string)])
  = (Return sys, w2) ->
  getEffectiveConfig this w
  = (Return {| apiKey := default (lit "") (sc_apiKey sys);
               baseUrl := first_nonempty [sc_baseUrl sys] (lit "https://api.anthropic.com");
               model := first_nonempty [sc_model sys] (lit "claude-sonnet-4-20250514") |}, w2).
Proof.
  intros Hn Hp Hs.
  rewrite (getEffectiveConfig_run _ _ _ _ _ _ (getUserConfig_corrupt _ _ _ Hn Hp) Hs).
  now rewrite first_nonempty_default.
Qed.

Lemma getEffectiveConfig_corrupt_user_config_witness :
  (getEffectiveConfig Example.manager Example.corrupt).1
  = Return {| apiKey := lit ""; baseUrl := lit "https://api.anthropic.com";
              model := lit "claude-sonnet-4-20250514" |}.
Proof.
  rewrite (getEffectiveConfig_corrupt_user_config Example.manager Example.corrupt
             (append_log Example.corrupt
                [(Warn, "Failed to read user config: {error}"%string);
                 (Warn, "Failed to read system config: {error}"%string)])
             (lit "{ not json") empty_SystemConfig);
    vm_compute; reflexivity.
Defined.

(** ** The credential checks of the POST handlers *)

Lemma validation_is_testConfig (request : SaveConfigRequest) :
  negb (truthy (req_apiKey request))
  || bool_decide (trim (default [] (req_apiKey request)) = [])
  = negb (testConfig {| sc_apiKey := req_apiKey request; sc_baseUrl := req_baseUrl request;
                        sc_model := req_model request |}).
Proof. unfold testConfig. cbn [sc_apiKey]. now destruct (_ || _). Qed.

(** X8: the save handler and [testConfig] apply the same credential check: a
    well-typed save request is answered 400 exactly when it opts out of the
    system defaults and [testConfig] rejects its fields. *)
Theorem handleSaveConfig_rejects_iff (c : Context) (w : world)
    (json : JSON.value) (request : SaveConfigRequest) :
  JSON.parse (req_body c) = Some json ->
  as_SaveConfigRequest json = Some request ->
  (exists response w', handleSaveConfig c w = (Return response, w') /\ status response = 400%N)
  <-> (req_useSystemDefaults request = false
       /\ testConfig {| sc_apiKey := req_apiKey request; sc_baseUrl := req_baseUrl request;
                        sc_model := req_model request |} = false).
Proof.
  intros Hp Hr. rewrite handleSaveConfig_run, Hp, Hr, validation_is_testConfig.
  destruct (req_useSystemDefaults request), (testConfig _); cbn [negb andb];
    (split; [intros (response & w' & H & Hst)|intros [? ?]]); try discriminate;
    try (destruct (saveUserConfig _ _ w) as [[[]|e|] w1];
         inversion H; subst; discriminate Hst).
  - split; reflexivity.
  - eexists _, _. split; reflexivity.
Qed.

Lemma handleSaveConfig_rejects_iff_witness :
  (exists response w',
      handleSaveConfig {| req_body := JSON_stringify_UserConfig Example.scenario_config |}
        Example.fresh = (Return response, w') /\ status response = 400%N).
Proof.
  refine (proj2 (handleSaveConfig_rejects_iff _ Example.fresh
           (JSON.VObj [(lit "useSystemDefaults", JSON.VBool false);
                       (lit "apiKey", JSON.VStr (lit ""));
                       (lit "baseUrl", JSON.VStr (lit "https://custom"))])
           {| req_useSystemDefaults := false; req_apiKey := Some (lit "");
              req_baseUrl := Some (lit "https://custom"); req_model := None |} _ _) _).
  - vm_compute. reflexivity.
  - vm_compute. reflexivity.
  - split; reflexivity.
Defined.

(** X9: the test handler's verdict.  For a well-typed candidate the answer is
    200 with [success] true exactly when the candidate has an [apiKey] that
    is not blank, and with the [error] "Invalid API configuration" exactly
    when [success] is false; the world is left as it was. *)
Theorem handleTestConfig_verdict (c : Context) (w : world)
    (json : JSON.value) (candidate : SystemConfig) :
  JSON.parse (req_body c) = Some json ->
  as_ConfigTestRequest json = Some candidate ->
  exists success : bool,
    handleTestConfig c w
    = (Return {| status := 200%N;
                 body := JSON.VObj
                   [(lit "success", JSON.VBool success);
                    (lit "error", if success then JSON.VUndefined
                                  else JSON.VStr (lit "Invalid API configuration"))] |}, w)
    /\ (success = true <-> exists k, sc_apiKey candidate = Some k /\ ~ blank k).
Proof.
  intros Hp Hr. exists (testConfig candidate). split; [|apply testConfig_true].
  unfold handleTestConfig, try_catch, mbind, M_bind, getConfigManager, JSON_parse.
  rewrite Hp. cbn [mret M_ret]. rewrite Hr. reflexivity.
Qed.

Lemma handleTestConfig_verdict_witness :
  exists success : bool,
    handleTestConfig MoreExamples.keyed_request Example.fresh
    = (Return {| status := 200%N;
                 body := JSON.VObj
                   [(lit "success", JSON.VBool success);
                    (lit "error", if success then JSON.VUndefined
                                  else JSON.VStr (lit "Invalid API configuration"))] |},
       Example.fresh)
    /\ (success = true
        <-> exists k, Some (lit "sk-ant-api03-0123456789") = Some k /\ ~ blank k).
Proof.
  apply (handleTestConfig_verdict MoreExamples.keyed_request Example.fresh
           (JSON.VObj [(lit "useSystemDefaults", JSON.VBool false);
                       (lit "apiKey", JSON.VStr (lit "sk-ant-api03-0123456789"));
                       (lit "model", JSON.VStr (lit "claude-x"))])
           {| sc_apiKey := Some (lit "sk-ant-api03-0123456789"); sc_baseUrl := None;
              sc_model := Some (lit "claude-x") |});
    vm_compute; reflexivity.
Defined.

(** X10: a request body that is not JSON is answered 500 by both POST
    handlers, with their generic error, after one log entry; nothing is
    written. *)
Theorem post_handlers_malformed_body (c : Context) (w : world) :
  JSON.parse (req_body c) = None ->
  handleSaveConfig c w
  = (Return {| status := 500%N;
               body := JSON.VObj [(lit "error", JSON.VStr (lit "Failed to save configuration"))] |},
     append_log w [(Error, "Failed to save config: {error}"%string)])
  /\ handleTestConfig c w
     = (Return {| status := 500%N;
                  body := JSON.VObj
                    [(lit "success", JSON.VBool false);
                     (lit "error", JSON.VStr (lit "Failed to test configuration"))] |},
        append_log w [(Error, "Failed to test config: {error}"%string)]).
Proof.
  intros Hp. split.
  - rewrite handleSaveConfig_run, Hp. reflexivity.
  - unfold handleTestConfig, try_catch, mbind, M_bind, JSON_parse. rewrite Hp. reflexivity.
Qed.

Lemma post_handlers_malformed_body_witness :
  (handleSaveConfig {| req_body := lit "{ not json" |} Example.custom).1
  = Return {| status := 500%N;
              body := JSON.VObj [(lit "error", JSON.VStr (lit "Failed to save configuration"))] |}.
Proof.
  rewrite (proj1 (post_handlers_malformed_body {| req_body := lit "{ not json" |}
                    Example.custom ltac:(vm_compute; reflexivity))).
  reflexivity.
Defined.

(** ** saveUserConfig and the tree *)

Lemma make_dirs_other (fs : gmap path node) (p q : path) :
  q ∉ prefixes p (length p) -> make_dirs fs p !! q = fs !! q.
Proof.
  unfold make_dirs. induction (prefixes p (length p)) as [|q' l IH]; [reflexivity|].
  intros Hq. apply not_elem_of_cons in Hq as [Hne Hq]. simpl.
  rewrite lookup_insert_ne by congruence. now apply IH.
Qed.

Lemma elem_of_prefixes_full (p q : path) :
  q ∈ prefixes p (length p) <-> q ∈ prefixes p (length p - 1) \/ (p <> [] /\ q = p).
Proof.
  rewrite !elem_of_prefixes. split.
  - intros (k & Hk & ->). destruct (decide (k = length p)) as [->|Hne].
    + right. split; [destruct p; [simpl in Hk; lia|discriminate]|]. now rewrite take_ge.
    + left. exists k. split; [lia|reflexivity].
  - intros [(k & Hk & ->) | [Hp ->]].
    + exists k. split; [lia|reflexivity].
    + exists (length p). apply length_nonempty in Hp. split; [lia|]. now rewrite take_ge.
Qed.

(** [mkdir] goes through exactly when no prefix of the path is a regular
    file. *)
Lemma mkdir_tree_cases (p : path) (fs : gmap path node) :
  (mkdir_tree p fs = Done (make_dirs fs p)
   /\ forall q, q ∈ prefixes p (length p) -> is_file (fs !! q) = false)
  \/ ((exists c, mkdir_tree p fs = Fail c)
      /\ exists q, q ∈ prefixes p (length p) /\ is_file (fs !! q) = true).
Proof.
  unfold mkdir_tree. destruct (under_file fs p) eqn:Hu.
  - right. split; [eauto|]. unfold under_file in Hu.
    apply existsb_exists in Hu as (q & Hq & Hf). apply list_elem_of_In in Hq.
    exists q. split; [|assumption]. apply elem_of_prefixes_full. now left.
  - destruct (is_file (node_at fs p)) eqn:Hf.
    + right. split; [eauto|]. exists p. destruct p as [|a p']; [discriminate|].
      split; [|exact Hf]. apply elem_of_prefixes_full. right. split; [discriminate|reflexivity].
    + left. split; [reflexivity|]. intros q [Hq | [Hp ->]]%elem_of_prefixes_full.
      * unfold under_file in Hu. destruct (is_file (fs !! q)) eqn:E; [|reflexivity].
        rewrite <- Hu. symmetry. apply existsb_exists. exists q.
        split; [now apply list_elem_of_In|assumption].
      * now rewrite node_at_nonempty in Hf.
Qed.

Lemma is_file_prefix_not_ready (fs : gmap path node) (dir q : path) :
  dirs_ready fs dir -> q ∈ prefixes dir (length dir) -> is_file (fs !! q) = false.
Proof. intros R Hq. now rewrite (R q Hq). Qed.

(** X11: [ensureConfigDir] makes directories and nothing else.  When it
    returns, every prefix of the config directory is a directory, every
    other path holds what it held, no regular file has changed, and calling
    it again changes nothing. *)
Theorem ensureConfigDir_once (this : ConfigManager) (w w1 : world) :
  ensureConfigDir this w = (Return tt, w1) ->
  dirs_ready (files w1) (configDir this)
  /\ (forall q, q ∉ prefixes (configDir this) (length (configDir this)) ->
        files w1 !! q = files w !! q)
  /\ (forall q data, files w !! q = Some (File data) -> files w1 !! q = Some (File data))
  /\ ensureConfigDir this w1 = (Return tt, w1).
Proof.
  unfold ensureConfigDir, try_catch, mkdir, apply_change.
  destruct (mkdir_tree_cases (configDir this) (files w)) as [[E Hnf] | [[c E] _]];
    rewrite E; [|discriminate].
  intros [= <-]. cbn [files with_files].
  pose proof (make_dirs_ready (files w) (configDir this)) as R.
  split; [exact R|]. split; [intros q Hq; now apply make_dirs_other|]. split.
  - intros q data Hq. rewrite make_dirs_other; [assumption|].
    intros Hin. apply Hnf in Hin. rewrite Hq in Hin. discriminate.
  - rewrite (ready_mkdir_tree _ _ R). reflexivity.
Qed.

Lemma ensureConfigDir_once_witness :
  exists w1,
    ensureConfigDir Example.manager Example.system_only = (Return tt, w1)
    /\ ensureConfigDir Example.manager w1 = (Return tt, w1)
    /\ files w1 !! systemConfigPath Example.manager
       = files Example.system_only !! systemConfigPath Example.manager.
Proof.
  pose (w1 := (ensureConfigDir Example.manager Example.system_only).2).
  assert (ensureConfigDir Example.manager Example.system_only = (Return tt, w1)) as H
    by (vm_compute; reflexivity).
  destruct (ensureConfigDir_once Example.manager Example.system_only w1 H)
    as (_ & Ho & _ & Hagain).
  exists w1. split; [exact H|]. split; [exact Hagain|].
  apply Ho. vm_compute. intros Hin. repeat (apply elem_of_cons in Hin as [Hin|Hin]; [discriminate Hin|]).
  inversion Hin.
Defined.

(** [saveUserConfig], step by step. *)
Lemma saveUserConfig_run (this : ConfigManager) (config : UserConfig) (w : world) :
  saveUserConfig this config w
  = match mkdir_tree (configDir this) (files w) with
    | Done fs1 =>
        match writeFile_tree (tempPath this) (JSON_stringify_UserConfig config) fs1 with
        | Done fs2 =>
            match rename_tree (tempPath this) (userConfigPath this) fs2 with
            | Done fs3 =>
                (Return tt, append_log (with_files w fs3)
                              [(Info, "Saved user config to {path}"%string)])
            | Fail c =>
                (Throw (SystemError c),
                 append_log (with_files w fs2)
                   [(Error, "Failed to save user config: {error}"%string)])
            | Unsupported => (Unmodelled, with_files w fs2)
            end
        | Fail c =>
            (Throw (SystemError c),
             append_log (with_files w fs1)
               [(Error, "Failed to save user config: {error}"%string)])
        | Unsupported => (Unmodelled, with_files w fs1)
        end
    | Fail c =>
        (Throw (SystemError c),
         append_log (append_log w [(Error, "Failed to create config directory: {error}"%string)])
           [(Error, "Failed to save user config: {error}"%string)])
    | Unsupported => (Unmodelled, w)
    end.
Proof.
  unfold saveUserConfig, ensureConfigDir, try_catch, mbind, M_bind, mkdir, writeFile, rename,
    apply_change, tempPath.
  destruct (mkdir_tree _ _) as [fs1|c|]; try reflexivity. cbn [files with_files].
  destruct (writeFile_tree _ _ fs1) as [fs2|c|]; try reflexivity. cbn [files with_files].
  destruct (rename_tree _ _ fs2) as [fs3|c|]; reflexivity.
Qed.

Section SaveLayout.

Variable home : path.
Let this : ConfigManager := ConfigManager_new home.
Let dir : path := home ++ [".claude-webui"%string].
Let canon : path := dir ++ ["config.json"%string].
Let temp : path := dir ++ ["config.json.tmp"%string].

Lemma layout_tempPath' : tempPath this = temp.
Proof. unfold tempPath, this. apply layout_tempPath. Qed.

(** The four ways [saveUserConfig] ends, by the shape of the tree. *)
Lemma saveUserConfig_layout (config : UserConfig) (w : world) :
  let data := JSON_stringify_UserConfig config in
  let failed := [(Error, "Failed to save user config: {error}"%string)] in
  ((exists q, q ∈ prefixes dir (length dir) /\ is_file (files w !! q) = true)
   /\ exists c,
       saveUserConfig this config w
       = (Throw (SystemError c),
          append_log
            (append_log w [(Error, "Failed to create config directory: {error}"%string)])
            failed))
  \/ ((forall q, q ∈ prefixes dir (length dir) -> is_file (files w !! q) = false)
      /\ ((files w !! temp = Some Dir
           /\ saveUserConfig this config w
              = (Throw (SystemError "EISDIR"),
                 append_log (with_files w (make_dirs (files w) dir)) failed))
          \/ (files w !! temp <> Some Dir
              /\ ((files w !! canon = Some Dir
                   /\ saveUserConfig this config w
                      = (Throw (SystemError "EISDIR"),
                         append_log
                           (with_files w (<[temp := File data]> (make_dirs (files w) dir)))
                           failed))
                  \/ (files w !! canon <> Some Dir
                      /\ saveUserConfig this config w
                         = (Return tt,
                            append_log
                              (with_files w
                                 (<[canon := File data]>
                                    (delete temp (make_dirs (files w) dir))))
                              [(Info, "Saved user config to {path}"%string)])))))).
Proof.
  intros data failed. rewrite saveUserConfig_run, layout_tempPath'.
  change (configDir this) with dir. change (userConfigPath this) with canon.
  destruct (mkdir_tree_cases dir (files w)) as [[E Hnf] | [[c E] Hf]]; rewrite E.
  2:{ left. split; [exact Hf|]. eauto. }
  right. split; [exact Hnf|].
  pose proof (make_dirs_ready (files w) dir) as R1.
  assert (make_dirs (files w) dir !! temp = files w !! temp) as Ht
    by apply make_dirs_other, temp_not_prefix.
  assert (make_dirs (files w) dir !! canon = files w !! canon) as Hc
    by apply make_dirs_other, canon_not_prefix.
  rewrite (ready_writeFile_tree home _ _ R1). fold dir temp. rewrite Ht.
  destruct (files w !! temp) as [[|old]|] eqn:Et; [left; split; reflexivity| |];
    (right; split; [discriminate|]).
  all: set (fs2 := <[temp := File (JSON_stringify_UserConfig config)]> (make_dirs (files w) dir)).
  all: assert (dirs_ready fs2 dir) as R2
         by (apply ready_insert; [exact R1|apply temp_not_prefix]).
  all: assert (fs2 !! temp = Some (File (JSON_stringify_UserConfig config))) as Ht2
         by apply lookup_insert_eq.
  all: assert (fs2 !! canon = files w !! canon) as Hc2
         by (unfold fs2; rewrite lookup_insert_ne by apply temp_ne_canon; exact Hc).
  all: rewrite (ready_rename_tree home _ _ R2 Ht2
                : rename_tree temp canon fs2
                  = match fs2 !! canon with
                    | Some Dir => Fail "EISDIR"
                    | _ => Done (<[canon := File (JSON_stringify_UserConfig config)]>
                                   (delete temp fs2))
                    end); rewrite Hc2.
  all: destruct (files w !! canon) as [[|oldc]|] eqn:Ec;
         [left; split; reflexivity|right; split; [discriminate|].. ].
  all: unfold fs2, data; now rewrite delete_insert_eq.
Qed.

End SaveLayout.

Lemma layout_paths (home : path) :
  configDir (ConfigManager_new home) = home ++ [".claude-webui"%string]
  /\ userConfigPath (ConfigManager_new home)
     = (home ++ [".claude-webui"%string]) ++ ["config.json"%string]
  /\ tempPath (ConfigManager_new home)
     = (home ++ [".claude-webui"%string]) ++ ["config.json.tmp"%string]
  /\ systemConfigPath (ConfigManager_new home)
     = (home ++ [".claude"%string]) ++ ["settings.json"%string].
Proof.
  repeat split; [apply layout_tempPath'|].
  unfold ConfigManager_new, path_join. cbn [systemConfigPath]. now rewrite <- app_assoc.
Qed.

Lemma saveUserConfig_keeps_file (home : path) (config : UserConfig) (w w1 : world) (e : error) :
  saveUserConfig (ConfigManager_new home) config w = (Throw e, w1) ->
  files w1 !! userConfigPath (ConfigManager_new home)
  = files w !! userConfigPath (ConfigManager_new home).
Proof.
  intros H. destruct (layout_paths home) as (_ & -> & _ & _).
  destruct (saveUserConfig_layout home config w)
    as [[_ [c E]] | [_ [[_ E] | [_ [[_ E] | [_ E]]]]]];
    rewrite E in H; inversion H; subst; clear H; cbn [files append_log with_files].
  - reflexivity.
  - apply make_dirs_other, canon_not_prefix.
  - rewrite lookup_insert_ne by apply temp_ne_canon. apply make_dirs_other, canon_not_prefix.
Qed.

Lemma saveUserConfig_stores (home : path) (config : UserConfig) (w w1 : world) :
  saveUserConfig (ConfigManager_new home) config w = (Return tt, w1) ->
  files w1 !! userConfigPath (ConfigManager_new home)
  = Some (File (JSON_stringify_UserConfig config))
  /\ files w1 !! tempPath (ConfigManager_new home) = None.
Proof.
  intros H. destruct (layout_paths home) as (_ & -> & -> & _).
  destruct (saveUserConfig_layout home config w)
    as [[_ [c E]] | [_ [[_ E] | [_ [[_ E] | [_ E]]]]]];
    rewrite E in H; inversion H; subst; clear H. cbn [files log append_log with_files].
  split; [apply lookup_insert_eq|].
  rewrite lookup_insert_ne by (apply not_eq_sym, temp_ne_canon). apply lookup_delete_eq.
Qed.

(** X12: a failed save leaves the canonical file alone.  When
    [saveUserConfig] throws, the canonical file is what it was before the
    call (absent, if it was absent), and the failure is the last entry of
    the log. *)
Theorem saveUserConfig_failure_keeps_file (home : path) (config : UserConfig)
    (w w1 : world) (e : error) :
  saveUserConfig (ConfigManager_new home) config w = (Throw e, w1) ->
  files w1 !! userConfigPath (ConfigManager_new home)
  = files w !! userConfigPath (ConfigManager_new home)
  /\ exists w0, w1 = append_log w0 [(Error, "Failed to save user config: {error}"%string)].
Proof.
  intros H. split; [exact (saveUserConfig_keeps_file _ _ _ _ _ H)|].
  destruct (saveUserConfig_layout home config w)
    as [[_ [c E]] | [_ [[_ E] | [_ [[_ E] | [_ E]]]]]];
    rewrite E in H; inversion H; subst; eauto.
Qed.

Lemma saveUserConfig_failure_keeps_file_witness :
  exists e w1,
    saveUserConfig Example.manager Example.custom_config MoreExamples.canon_is_dir = (Throw e, w1)
    /\ files w1 !! userConfigPath Example.manager = Some Dir.
Proof.
  pose (r := saveUserConfig Example.manager Example.custom_config MoreExamples.canon_is_dir).
  assert (r = (Throw (SystemError "EISDIR"), r.2)) as H by (vm_compute; reflexivity).
  destruct (saveUserConfig_failure_keeps_file Example.home Example.custom_config
              MoreExamples.canon_is_dir r.2 (SystemError "EISDIR") H) as [Hk _].
  exists (SystemError "EISDIR"), r.2. split; [exact H|].
  exact (eq_trans Hk eq_refl).
Defined.



(** X14: what a successful save leaves.  The canonical file holds the JSON
    text of the config, the temp file is gone, and every prefix of the
    config directory is a directory. *)
Theorem saveUserConfig_success_tree (home : path) (config : UserConfig) (w w1 : world) :
  saveUserConfig (ConfigManager_new home) config w = (Return tt, w1) ->
  files w1 !! userConfigPath (ConfigManager_new home)
  = Some (File (JSON_stringify_UserConfig config))
  /\ files w1 !! tempPath (ConfigManager_new home) = None
  /\ dirs_ready (files w1) (configDir (ConfigManager_new home))
  /\ log w1 = log w ++ [(Info, "Saved user config to {path}"%string)].
Proof.
  intros H. destruct (saveUserConfig_stores _ _ _ _ H) as [Hc Ht].
  split; [exact Hc|]. split; [exact Ht|]. clear Hc Ht.
  destruct (layout_paths home) as (-> & _).
  destruct (saveUserConfig_layout home config w)
    as [[_ [c E]] | [_ [[_ E] | [_ [[_ E] | [_ E]]]]]];
    rewrite E in H; inversion H; subst; clear H. cbn [files log append_log with_files].
  split; [|reflexivity].
  apply ready_insert; [|apply canon_not_prefix].
  apply ready_delete; [apply make_dirs_ready|apply temp_not_prefix].
Qed.

Lemma saveUserConfig_success_tree_witness :
  exists w1,
    saveUserConfig Example.manager Example.custom_config Example.fresh = (Return tt, w1)
    /\ files w1 !! tempPath Example.manager = None.
Proof.
  pose (w1 := (saveUserConfig Example.manager Example.custom_config Example.fresh).2).
  assert (saveUserConfig Example.manager Example.custom_config Example.fresh = (Return tt, w1))
    as H by (vm_compute; reflexivity).
  exists w1. split; [exact H|].
  apply (saveUserConfig_success_tree Example.home Example.custom_config Example.fresh w1 H).
Defined.

Lemma system_path_outside (home : path) :
  let sys := (home ++ [".claude"%string]) ++ ["settings.json"%string] in
  let dir := home ++ [".claude-webui"%string] in
  (sys ∉ prefixes dir (length dir))
  /\ sys <> dir ++ ["config.json.tmp"%string]
  /\ sys <> dir ++ ["config.json"%string].
Proof.
  intros sys dir. split; [|split].
  - intros Hin%prefix_shorter. unfold sys, dir in Hin. rewrite !length_app in Hin.
    simpl in Hin. lia.
  - unfold sys, dir. intros [H _]%app_inj_tail. apply app_inj_tail in H as [_ H]. discriminate.
  - unfold sys, dir. intros [H _]%app_inj_tail. apply app_inj_tail in H as [_ H]. discriminate.
Qed.

(** X15: where a save can write.  However [saveUserConfig] ends, a path that
    is not a prefix of the config directory, the temp path or the canonical
    path holds what it held before; the system settings file is such a
    path, so no save ever changes it. *)
Theorem saveUserConfig_writes_only_its_own (home : path) (config : UserConfig) (w : world) :
  let this := ConfigManager_new home in
  let after := (saveUserConfig this config w).2 in
  (forall q, q ∉ prefixes (configDir this) (length (configDir this)) ->
             q <> tempPath this -> q <> userConfigPath this ->
             files after !! q = files w !! q)
  /\ files after !! systemConfigPath this = files w !! systemConfigPath this.
Proof.
  intros this after.
  assert (forall q, q ∉ prefixes (configDir this) (length (configDir this)) ->
                    q <> tempPath this -> q <> userConfigPath this ->
                    files after !! q = files w !! q) as Hout.
  { unfold after, this. destruct (layout_paths home) as (-> & -> & -> & _).
    intros q Hq Ht Hc.
    destruct (saveUserConfig_layout home config w)
      as [[_ [c E]] | [_ [[_ E] | [_ [[_ E] | [_ E]]]]]];
      rewrite E; cbn [snd files append_log with_files];
      rewrite ?lookup_insert_ne, ?lookup_delete_ne by congruence;
      first [reflexivity | now apply make_dirs_other]. }
  split; [exact Hout|]. unfold this in *.
  destruct (system_path_outside home) as (H1 & H2 & H3).
  destruct (layout_paths home) as (Ed & Ec & Et & Es).
  apply Hout; rewrite Es, ?Ed, ?Et, ?Ec; assumption.
Qed.

(** ** The save handler over the file system *)

(** What a 200 from the save handler means. *)
Lemma handleSaveConfig_200 (c : Context) (w w1 : world) (response : Response)
    (json : JSON.value) (request : SaveConfigRequest) :
  JSON.parse (req_body c) = Some json ->
  as_SaveConfigRequest json = Some request ->
  handleSaveConfig c w = (Return response, w1) ->
  status response = 200%N ->
  (req_useSystemDefaults request = true
   \/ exists k, req_apiKey request = Some k /\ ~ blank k)
  /\ saveUserConfig (ConfigManager_new (homedir w)) (config_of_request request) w
     = (Return tt, w1)
  /\ response = c_json (UserConfigResponse (req_useSystemDefaults request)
                          (maskApiKey (req_apiKey request))
                          (req_baseUrl request) (req_model request)) 200%N.
Proof.
  intros Hp Hr H Hst. rewrite handleSaveConfig_run, Hp, Hr, validation_is_testConfig in H.
  destruct (req_useSystemDefaults request) eqn:Eu; cbn [negb andb] in H.
  - destruct (saveUserConfig _ _ w) as [[[]|e|] w'] eqn:Es; inversion H; subst;
      try discriminate. auto.
  - destruct (testConfig _) eqn:Et; cbn [negb] in H.
    + destruct (saveUserConfig _ _ w) as [[[]|e|] w'] eqn:Es; inversion H; subst;
        try discriminate.
      apply testConfig_true in Et. auto.
    + inversion H; subst. discriminate.
Qed.

Lemma saveUserConfig_homedir (home : path) (config : UserConfig) (w : world) :
  homedir (saveUserConfig (ConfigManager_new home) config w).2 = homedir w.
Proof.
  destruct (saveUserConfig_layout home config w)
    as [[_ [c E]] | [_ [[_ E] | [_ [[_ E] | [_ E]]]]]]; rewrite E; reflexivity.
Qed.

(** X16: the answer shows the mask, the file keeps the key.  When the save
    handler answers 200 to a well-typed request, the answer carries
    [maskApiKey] of the request's key, while the canonical file holds the
    JSON text of the request's fields, the key as it was sent; the temp file
    is gone. *)
Theorem handleSaveConfig_saved (c : Context) (w w1 : world) (response : Response)
    (json : JSON.value) (request : SaveConfigRequest) :
  JSON.parse (req_body c) = Some json ->
  as_SaveConfigRequest json = Some request ->
  handleSaveConfig c w = (Return response, w1) ->
  status response = 200%N ->
  body response = UserConfigResponse (req_useSystemDefaults request)
                    (maskApiKey (req_apiKey request)) (req_baseUrl request) (req_model request)
  /\ files w1 !! userConfigPath (ConfigManager_new (homedir w))
     = Some (File (JSON_stringify_UserConfig (config_of_request request)))
  /\ files w1 !! tempPath (ConfigManager_new (homedir w)) = None.
Proof.
  intros Hp Hr H Hst.
  destruct (handleSaveConfig_200 _ _ _ _ _ _ Hp Hr H Hst) as (_ & Hs & ->).
  split; [reflexivity|]. exact (saveUserConfig_stores _ _ _ _ Hs).
Qed.

Lemma handleSaveConfig_saved_witness :
  let r := handleSaveConfig MoreExamples.keyed_request Example.system_only in
  exists response,
    r.1 = Return response
    /\ JSON.get (body response) (lit "apiKey") = Some (JSON.VStr (lit "sk-ant-...789"))
    /\ files r.2 !! userConfigPath Example.manager
       = Some (File (JSON_stringify_UserConfig MoreExamples.keyed_config)).
Proof.
  intros r.
  pose (response := c_json (UserConfigResponse false (Some (lit "sk-ant-...789")) None
                              (Some (lit "claude-x"))) 200%N).
  assert (r = (Return response, r.2)) as H by (vm_compute; reflexivity).
  destruct (handleSaveConfig_saved MoreExamples.keyed_request Example.system_only r.2 response
              (JSON.VObj [(lit "useSystemDefaults", JSON.VBool false);
                          (lit "apiKey", JSON.VStr (lit "sk-ant-api03-0123456789"));
                          (lit "model", JSON.VStr (lit "claude-x"))])
              {| req_useSystemDefaults := false;
                 req_apiKey := Some (lit "sk-ant-api03-0123456789");
                 req_baseUrl := None; req_model := Some (lit "claude-x") |}
              ltac:(vm_compute; reflexivity) ltac:(vm_compute; reflexivity) H eq_refl)
    as (Hb & Hf & _).
  exists response. split; [now rewrite H|]. split; [reflexivity|exact Hf].
Defined.



(** X18: a fetch after a save shows what the save answered.  When the save
    handler has answered 200 to a well-typed request and the system config
    loads, [handleGetConfig] in the world the save left answers with the
    very same response. *)
Theorem handleGetConfig_after_save (c c' : Context) (w w1 w2 : world) (response : Response)
    (json : JSON.value) (request : SaveConfigRequest) (sys : SystemConfig) :
  JSON.parse (req_body c) = Some json ->
  as_SaveConfigRequest json = Some request ->
  handleSaveConfig c w = (Return response, w1) ->
  status response = 200%N ->
  getSystemConfig (ConfigManager_new (homedir w1))
    (append_log w1 [(Info, "Loaded user config from {path}"%string)]) = (Return sys, w2) ->
  handleGetConfig c' w1 = (Return response, w2).
Proof.
  intros Hp Hr H Hst Hsys.
  destruct (handleSaveConfig_200 _ _ _ _ _ _ Hp Hr H Hst) as (_ & Hs & ->).
  assert (homedir w1 = homedir w) as Eh.
  { rewrite <- (saveUserConfig_homedir (homedir w) (config_of_request request) w).
    now rewrite Hs. }
  rewrite <- Eh in Hs. apply saveUserConfig_then_getUserConfig in Hs.
  rewrite (handleGetConfig_run c' w1 _ _ _ _ Hs Hsys). reflexivity.
Qed.

Lemma handleGetConfig_after_save_witness :
  let saved := handleSaveConfig MoreExamples.keyed_request Example.system_only in
  exists response,
    saved.1 = Return response
    /\ (handleGetConfig {| req_body := [] |} saved.2).1 = Return response.
Proof.
  intros saved.
  pose (response := c_json (UserConfigResponse false (Some (lit "sk-ant-...789")) None
                              (Some (lit "claude-x"))) 200%N).
  pose (r := getSystemConfig Example.manager
               (append_log saved.2 [(Info, "Loaded user config from {path}"%string)])).
  assert (saved = (Return response, saved.2)) as H by (vm_compute; reflexivity).
  pose (sys := {| sc_apiKey := Some (lit "sys-key"); sc_baseUrl := None; sc_model := None |}).
  assert (r = (Return sys, r.2)) as Hsys by (vm_compute; reflexivity).
  exists response. split; [now rewrite H|].
  rewrite (handleGetConfig_after_save MoreExamples.keyed_request {| req_body := [] |}
             Example.system_only saved.2 r.2 response
             (JSON.VObj [(lit "useSystemDefaults", JSON.VBool false);
                         (lit "apiKey", JSON.VStr (lit "sk-ant-api03-0123456789"));
                         (lit "model", JSON.VStr (lit "claude-x"))])
             {| req_useSystemDefaults := false;
                req_apiKey := Some (lit "sk-ant-api03-0123456789");
                req_baseUrl := None; req_model := Some (lit "claude-x") |} sys
             ltac:(vm_compute; reflexivity) ltac:(vm_compute; reflexivity) H eq_refl Hsys).
  reflexivity.
Defined.

(** X19: what takes effect after a save.  When the save handler has answered
    200 to a well-typed request and the system config loads, the effective
    config in the world the save left is: with [useSystemDefaults], the
    system config over the defaults, whatever key the request carried;
    without it, the request's key as it was sent (it is not blank, so the
    system key is never consulted) and the request's [baseUrl] and [model]
    over the defaults. *)
Theorem getEffectiveConfig_after_save (c : Context) (w w1 w2 : world) (response : Response)
    (json : JSON.value) (request : SaveConfigRequest) (sys : SystemConfig) :
  JSON.parse (req_body c) = Some json ->
  as_SaveConfigRequest json = Some request ->
  handleSaveConfig c w = (Return response, w1) ->
  status response = 200%N ->
  getSystemConfig (ConfigManager_new (homedir w1))
    (append_log w1 [(Info, "Loaded user config from {path}"%string)]) = (Return sys, w2) ->
  getEffectiveConfig (ConfigManager_new (homedir w1)) w1
  = (Return (if req_useSystemDefaults request then
               {| apiKey := first_nonempty [sc_apiKey sys] [];
                  baseUrl := first_nonempty [sc_baseUrl sys] DEFAULT_CONFIG_baseUrl;
                  model := first_nonempty [sc_model sys] DEFAULT_CONFIG_model |}
             else
               {| apiKey := default [] (req_apiKey request);
                  baseUrl := first_nonempty [req_baseUrl request] DEFAULT_CONFIG_baseUrl;
                  model := first_nonempty [req_model request] DEFAULT_CONFIG_model |}), w2).
Proof.
  intros Hp Hr H Hst Hsys.
  destruct (handleSaveConfig_200 _ _ _ _ _ _ Hp Hr H Hst) as (Hacc & Hs & _).
  assert (homedir w1 = homedir w) as Eh.
  { rewrite <- (saveUserConfig_homedir (homedir w) (config_of_request request) w).
    now rewrite Hs. }
  rewrite <- Eh in Hs. apply saveUserConfig_then_getUserConfig in Hs.
  rewrite (getEffectiveConfig_run _ _ _ _ _ _ Hs Hsys).
  unfold wants_system_defaults, config_of_request.
  cbn [useSystemDefaults uc_apiKey uc_baseUrl uc_model].
  destruct (req_useSystemDefaults request); [reflexivity|].
  destruct Hacc as [[=]|(k & Ek & Hk)]. rewrite Ek.
  apply not_blank_nonempty in Hk. destruct k; [contradiction|reflexivity].
Qed.

Lemma getEffectiveConfig_after_save_witness :
  let saved := handleSaveConfig MoreExamples.masked_request Example.system_only in
  exists effective,
    (getEffectiveConfig Example.manager saved.2).1 = Return effective
    /\ apiKey effective = lit "sk-ant-...789".
Proof.
  intros saved.
  exists {| apiKey := lit "sk-ant-...789"; baseUrl := DEFAULT_CONFIG_baseUrl;
            model := lit "claude-x" |}.
  pose (response := c_json (UserConfigResponse false (Some (lit "sk-ant-...789")) None
                              (Some (lit "claude-x"))) 200%N).
  pose (r := getSystemConfig Example.manager
               (append_log saved.2 [(Info, "Loaded user config from {path}"%string)])).
  assert (saved = (Return response, saved.2)) as H by (vm_compute; reflexivity).
  pose (sys := {| sc_apiKey := Some (lit "sys-key"); sc_baseUrl := None; sc_model := None |}).
  assert (r = (Return sys, r.2)) as Hsys by (vm_compute; reflexivity).
  change Example.manager with (ConfigManager_new (homedir saved.2)).
  rewrite (getEffectiveConfig_after_save MoreExamples.masked_request
             Example.system_only saved.2 r.2 response
             (JSON.VObj [(lit "useSystemDefaults", JSON.VBool false);
                         (lit "apiKey", JSON.VStr (lit "sk-ant-...789"));
                         (lit "model", JSON.VStr (lit "claude-x"))])
             {| req_useSystemDefaults := false;
                req_apiKey := Some (lit "sk-ant-...789");
                req_baseUrl := None; req_model := Some (lit "claude-x") |} sys
             ltac:(vm_compute; reflexivity) ltac:(vm_compute; reflexivity) H eq_refl Hsys).
  split; reflexivity.
Defined.

(** X20: a masked key passes the validation of the save handler.  A
    well-typed request that opts out of the system defaults and carries,
    as its [apiKey], the mask of a non-empty key is never answered 400. *)
Theorem handleSaveConfig_accepts_mask (c : Context) (w w1 : world) (response : Response)
    (json : JSON.value) (request : SaveConfigRequest) (k : text) :
  JSON.parse (req_body c) = Some json ->
  as_SaveConfigRequest json = Some request ->
  k <> [] ->
  req_apiKey request = maskApiKey (Some k) ->
  handleSaveConfig c w = (Return response, w1) ->
  status response <> 400%N.
Proof.
  intros Hp Hr Hk Em H. rewrite handleSaveConfig_run, Hp, Hr, validation_is_testConfig in H.
  assert (testConfig {| sc_apiKey := req_apiKey request; sc_baseUrl := req_baseUrl request;
                        sc_model := req_model request |} = true) as Ht.
  { apply testConfig_true. cbn [sc_apiKey]. rewrite Em.
    destruct (maskApiKey (Some k)) as [m|] eqn:E.
    - exists m. split; [reflexivity|]. now apply (maskApiKey_not_blank k).
    - destruct (le_lt_dec (length k) 10);
        [rewrite (maskApiKey_short k) in E by assumption
        |rewrite (maskApiKey_long k) in E by assumption]; discriminate. }
  rewrite Ht in H. cbn [negb] in H. rewrite andb_false_r in H.
  destruct (saveUserConfig _ _ w) as [[[]|e|] w'] eqn:Es; inversion H; subst; discriminate.
Qed.

Lemma handleSaveConfig_accepts_mask_witness :
  exists response,
    (handleSaveConfig MoreExamples.masked_request Example.fresh).1 = Return response
    /\ status response <> 400%N.
Proof.
  pose (r := handleSaveConfig MoreExamples.masked_request Example.fresh).
  pose (response := c_json (UserConfigResponse false (Some (lit "sk-ant-...789")) None
                              (Some (lit "claude-x"))) 200%N).
  assert (r = (Return response, r.2)) as H by (vm_compute; reflexivity).
  exists response. split; [now vm_compute|].
  exact (handleSaveConfig_accepts_mask MoreExamples.masked_request Example.fresh r.2 response
           (JSON.VObj [(lit "useSystemDefaults", JSON.VBool false);
                       (lit "apiKey", JSON.VStr (lit "sk-ant-...789"));
                       (lit "model", JSON.VStr (lit "claude-x"))])
           {| req_useSystemDefaults := false;
              req_apiKey := Some (lit "sk-ant-...789");
              req_baseUrl := None; req_model := Some (lit "claude-x") |}
           (lit "sk-ant-api03-0123456789")
           ltac:(vm_compute; reflexivity) ltac:(vm_compute; reflexivity)
           ltac:(discriminate) ltac:(vm_compute; reflexivity) H).
Defined.

(** X21: the fetch handler shows what is stored, not what takes effect.
    When a user config is stored that defers to the system defaults, and the
    system config loads, [handleGetConfig] answers with the stored fields of
    the user config (its key masked), whatever the system config holds,
    while [getEffectiveConfig] answers with the system config over the
    defaults, whatever the user config holds. *)
Theorem handleGetConfig_shows_stored (c : Context) (w w1 w2 : world)
    (user : UserConfig) (sys : SystemConfig) :
  getUserConfig (ConfigManager_new (homedir w)) w = (Return (Some user), w1) ->
  getSystemConfig (ConfigManager_new (homedir w)) w1 = (Return sys, w2) ->
  useSystemDefaults user = true ->
  handleGetConfig c w
  = (Return {| status := 200%N;
               body := UserConfigResponse true (maskApiKey (uc_apiKey user))
                         (uc_baseUrl user) (uc_model user) |}, w2)
  /\ getEffectiveConfig (ConfigManager_new (homedir w)) w
     = (Return {| apiKey := default [] (sc_apiKey sys);
                  baseUrl := first_nonempty [sc_baseUrl sys] DEFAULT_CONFIG_baseUrl;
                  model := first_nonempty [sc_model sys] DEFAULT_CONFIG_model |}, w2).
Proof.
  intros Hu Hs Hd. split.
  - rewrite (handleGetConfig_run c w _ _ _ _ Hu Hs), Hd. reflexivity.
  - rewrite (getEffectiveConfig_run _ _ _ _ _ _ Hu Hs). cbn [wants_system_defaults].
    rewrite Hd. now destruct (sc_apiKey sys) as [[|]|].
Qed.

Lemma handleGetConfig_shows_stored_witness :
  (handleGetConfig {| req_body := [] |} Example.deferring).1
  = Return {| status := 200%N;
              body := UserConfigResponse true (Some (lit "***")) (Some (lit "https://custom"))
                        (Some (lit "user-model")) |}
  /\ (getEffectiveConfig Example.manager Example.deferring).1
     = Return {| apiKey := lit "sys-key-0123456789"; baseUrl := lit "https://proxy";
                 model := lit "sys-model" |}.
Proof.
  destruct (handleGetConfig_shows_stored {| req_body := [] |} Example.deferring
              (append_log Example.deferring Example.loaded_user)
              (append_log Example.deferring Example.loaded_both)
              Example.deferring_config Example.full_system
              ltac:(vm_compute; reflexivity) ltac:(vm_compute; reflexivity) eq_refl)
    as [H1 H2].
  split; [rewrite H1|change Example.manager with (ConfigManager_new (homedir Example.deferring));
                     rewrite H2]; reflexivity.
Defined.
